(** * punkt: the symlink set manager and its path utilities

    A shallow embedding of
      - package [path] (the part of src/run/run.go after the [run] package):
        [ExpandHome] and [UnexpandHome];
      - package [symlink] (src/mgr/symlink/mgr.go): [Manager.Add],
        [Manager.Remove], [Manager.Dump] and the configuration helpers;
      - the survey of symbolic links that src/cmd/dump.go calls, after the
        specification.

    Go strings are byte sequences: they are modelled by [string] (a list of
    8-bit [ascii]).  The filesystem the manager works on is reached through
    interfaces in the Go code ([billy.Filesystem], [LinkManager]); the
    embedding keeps them as interfaces over an abstract state, and gives one
    in-memory instance to run the code on concrete inputs. *)

From stdpp Require Import base option list strings gmap.
From Stdlib Require Import ZArith Lia Ascii.

Open Scope string_scope.
Open Scope list_scope.

(** ** Go's [strings] package, as far as the sources use it *)

Module strings.

(** [s[n:]]. *)
Fixpoint slice_from (n : nat) (s : string) : string :=
  match n, s with
  | O, _ => s
  | S n', String _ s' => slice_from n' s'
  | S _, EmptyString => EmptyString
  end.

(** [s[:n]]. *)
Fixpoint slice_to (n : nat) (s : string) : string :=
  match n, s with
  | O, _ => EmptyString
  | S n', String c s' => String c (slice_to n' s')
  | S _, EmptyString => EmptyString
  end.

(** [strings.HasPrefix(s, prefix)]. *)
Fixpoint HasPrefix (s prefix : string) {struct prefix} : bool :=
  match prefix, s with
  | EmptyString, _ => true
  | String _ _, EmptyString => false
  | String a prefix', String b s' => Ascii.eqb a b && HasPrefix s' prefix'
  end.

(** [strings.Index(s, substr)]: the byte index of the first occurrence of
    [substr] in [s], or [-1]. *)
Fixpoint Index (s substr : string) : Z :=
  if HasPrefix s substr then 0%Z
  else match s with
       | EmptyString => (-1)%Z
       | String _ s' =>
           let i := Index s' substr in
           if (i <? 0)%Z then (-1)%Z else (i + 1)%Z
       end.

(** [strings.Replace(s, old, new, 1)].  Both call sites pass [n = 1], so the
    replacement loop of the library runs at most once, with [i = 0] and
    [start = 0]: [j] is [Index(s, old)], which is [0] for an empty [old]
    too.  The library returns [s] itself when [old == new] or when [old] does
    not occur ([Count(s, old) == 0]). *)
Definition Replace1 (s old new : string) : string :=
  if String.eqb old new then s
  else
    let j := Index s old in
    if (j <? 0)%Z then s
    else slice_to (Z.to_nat j) s +:+ new
         +:+ slice_from (Z.to_nat j + String.length old) s.

End strings.

(** What stands in [s] before the first occurrence of [sub]: all of [s] when
    [sub] does not occur ([strings.Index] is [-1]). *)
Definition before_first (s sub : string) : string :=
  if (strings.Index s sub <? 0)%Z then s
  else strings.slice_to (Z.to_nat (strings.Index s sub)) s.

(** The byte [c] does not occur in [s]. *)
Fixpoint absent (c : ascii) (s : string) : Prop :=
  match s with
  | EmptyString => True
  | String b s' => b <> c /\ absent c s'
  end.

(** ** Package [path] *)

(** ExpandHome takes the given string and replaces occurrences of ~ with the
    current user's home directory. *)
Definition ExpandHome (s home : string) : string :=
  strings.Replace1 s "~" home.

(** UnexpandHome takes the given string and replaces the user's home with ~. *)
Definition UnexpandHome (s home : string) : string :=
  strings.Replace1 s home "~".

(** ** Package [symlink]: the data model *)

(** Symlink describes a symlink, i.e. what it links from and what it links to. *)
Record Symlink := mkSymlink { Target : string; Link : string }.

#[global] Instance Symlink_eq_dec : EqDecision Symlink.
Proof. solve_decision. Defined.

Record Config := mkConfig { Symlinks : list Symlink }.

#[global] Instance Config_eq_dec : EqDecision Config.
Proof. solve_decision. Defined.

(** [Symlink.String]. *)
Definition Symlink_String (symlink : Symlink) : string :=
  Link symlink +:+ " -> " +:+ Target symlink.

(** The comparison the manager writes out in its loops:
    [a.Target == b.Target && a.Link == b.Link]. *)
Definition sameSymlink (a b : Symlink) : bool :=
  String.eqb (Target a) (Target b) && String.eqb (Link a) (Link b).

(** The number of records of a list with the [(Target, Link)] pair of [u]. *)
Definition occurrences (u : Symlink) (symlinks : list Symlink) : nat :=
  length (List.filter (sameSymlink u) symlinks).

(** ** Errors

    Go [error] values.  [ErrNoSuchFile] is the sentinel [file.ErrNoSuchFile]
    the manager compares against with [==]; [Errorf] and [Wrapf] are the
    constructors of [github.com/pkg/errors] the manager calls; errors raised
    by collaborators are values of the same type.  A nil error is [None]. *)
Inductive error :=
| ErrNoSuchFile
| Errorf (msg : string)
| Wrapf (cause : error) (msg : string).

#[global] Instance error_eq_dec : EqDecision error.
Proof. solve_decision. Defined.

(** [err == file.ErrNoSuchFile]. *)
Definition isErrNoSuchFile (err : error) : bool :=
  match err with ErrNoSuchFile => true | _ => false end.

(** A Go [(value, error)] pair whose value is read only when the error is nil. *)
Inductive result (A : Type) :=
| Ok (a : A)
| Err (err : error).
Arguments Ok {A} a.
Arguments Err {A} err.

(** ** The collaborators of the manager

    [W] is the state of the filesystem behind [mgr.config.Fs]; every call that
    can change it returns the state it leaves. *)

(** The interface [LinkManager]: a value of it is the record of its methods
    (the field [Manager.LinkManager]; the tests put a mock there).  [Remove]
    takes the two arguments mgr.go passes.  [New], [Expand] and [Unexpand]
    compute a symlink; [Ensure] and [Remove] act on the filesystem. *)
Module LinkManager.
Record t (W : Type) := {
  New : string -> string -> Symlink;
  Remove : string -> string -> W -> result Symlink * W;
  Ensure : Symlink -> W -> option error * W;
  Expand : Symlink -> Symlink;
  Unexpand : Symlink -> Symlink;
}.
Arguments New {W} _ _ _.
Arguments Remove {W} _ _ _ _.
Arguments Ensure {W} _ _ _.
Arguments Expand {W} _ _.
Arguments Unexpand {W} _ _.
End LinkManager.

(** The functions of packages [path] and [file] that mgr.go calls and that
    are not in the sources.  [AsAbsolute] and [ReadToml] only inspect the
    filesystem.  [ReadToml] decodes into a destination that starts as the zero
    [Config] and returns the destination with the error; when there is no file
    nothing is decoded ([ReadToml_no_file]). *)
Module pkg.
Class t (W : Type) := {
  AsAbsolute : W -> string -> string -> result string;
  ReadToml : W -> string -> Config * option error;
  SaveToml : W -> Config -> string -> option error * W;
  ReadToml_no_file : forall w file,
    (ReadToml w file).2 = Some ErrNoSuchFile -> (ReadToml w file).1 = mkConfig [];
}.
End pkg.

(** [conf.Config]: the paths of the configuration ([Fs] is the state [W]
    itself). *)
Record conf_Config := mkConf {
  UserHome : string;
  PunktHome : string;
  Dotfiles : string;
  WorkingDir : string;
}.

(** The calls a run makes to the link manager and to the functions that read
    and write the configuration, in order: what the tests
    observe through [MockLinkManager.AssertCalled]. *)
Inductive Call :=
| CallNew (a b : string)
| CallEnsure (symlink : Symlink)
| CallRemove (link target : string)
| CallReadToml (file : string)
| CallSaveToml (c : Config) (file : string).

#[global] Instance Call_eq_dec : EqDecision Call.
Proof. solve_decision. Defined.

(** The state a run threads: the filesystem and the calls made so far. *)
Record Run (W : Type) := mkRun { fs : W; calls : list Call }.
Arguments mkRun {W} fs calls.
Arguments fs {W} r.
Arguments calls {W} r.

Definition M (W A : Type) : Type := Run W -> A * Run W.

Definition ret {W A} (a : A) : M W A := fun r => (a, r).

Definition bind {W A B} (m : M W A) (k : A -> M W B) : M W B :=
  fun r => let '(a, r') := m r in k a r'.

Declare Scope run_scope.
Delimit Scope run_scope with run.
Notation "'let*' x ':=' m 'in' k" := (bind m (fun x => k))
  (at level 10, x pattern, m at level 100, k at level 200) : run_scope.

(** ** Package [symlink]: the manager *)

Module Manager.
Section Manager.
Context {W : Type} {P : pkg.t W}.

(** The struct [Manager]. *)
Record t := mk {
  LinkManager : LinkManager.t W;
  configFile : string;
  config : conf_Config;
}.

Variable mgr : t.

Local Open Scope run_scope.

(** The collaborators' calls, each recorded. *)
Definition callNew (a b : string) : M W Symlink :=
  fun r => (LinkManager.New (LinkManager mgr) a b,
            mkRun (fs r) (calls r ++ [CallNew a b])).

Definition callEnsure (symlink : Symlink) : M W (option error) :=
  fun r => let '(err, w) := LinkManager.Ensure (LinkManager mgr) symlink (fs r) in
           (err, mkRun w (calls r ++ [CallEnsure symlink])).

Definition callRemove (link target : string) : M W (result Symlink) :=
  fun r => let '(res, w) := LinkManager.Remove (LinkManager mgr) link target (fs r) in
           (res, mkRun w (calls r ++ [CallRemove link target])).

Definition callReadToml (file : string) : M W (Config * option error) :=
  fun r => (pkg.ReadToml (fs r) file, mkRun (fs r) (calls r ++ [CallReadToml file])).

Definition callSaveToml (c : Config) (file : string) : M W (option error) :=
  fun r => let '(err, w) := pkg.SaveToml (fs r) c file in
           (err, mkRun w (calls r ++ [CallSaveToml c file])).

Definition callAsAbsolute (p : string) : M W (result string) :=
  fun r => (pkg.AsAbsolute (fs r) (WorkingDir (config mgr)) p, r).

(** [readConfiguration]: the read; the branches on the error only log. *)
Definition readConfiguration : M W (Config * option error) :=
  callReadToml (configFile mgr).

(** [err != nil && err != file.ErrNoSuchFile]. *)
Definition otherError (err : option error) : bool :=
  match err with
  | Some e => negb (isErrNoSuchFile e)
  | None => false
  end.

(** [addToConfiguration].  The loop returns at the first stored record equal
    to [unexpanded]. *)
Definition addToConfiguration (new : Symlink) : M W (option Symlink * option error) :=
  let* (saved, err) := readConfiguration in
  if otherError err then ret (None, err) else
  let unexpanded := LinkManager.Unexpand (LinkManager mgr) new in
  if existsb (sameSymlink unexpanded) (Symlinks saved)
  then ret (Some unexpanded, None)
  else
    let saved := mkConfig (Symlinks saved ++ [unexpanded]) in
    let* err := callSaveToml saved (configFile mgr) in
    ret (Some unexpanded, err).

(** [Add]. *)
Definition Add (target newLocation : string) : M W (option Symlink * option error) :=
  let* res := callAsAbsolute target in
  match res with
  | Err err => ret (None, Some err)
  | Ok absTarget =>
      let* symlink := callNew newLocation absTarget in
      let* err := callEnsure symlink in
      match err with
      | Some e =>
          ret (None, Some (Wrapf e ("failed to ensure " +:+ Symlink_String symlink +:+ " exists")))
      | None =>
          let* (storedLink, err) := addToConfiguration symlink in
          ret (Some symlink, err)
      end
  end.

(** The loop of [Remove] over [config.Symlinks].  It stores [&symlink], the
    address of the loop variable, and the Go the repository builds with
    (1.9, see .travis.yml) has one loop variable for the whole loop: after the
    loop the pointer reads the value of the last iteration.  The state of the
    loop is the loop variable and whether the pointer was set. *)
Definition matchStep (link : string) (st : Symlink * bool) (symlink : Symlink)
  : Symlink * bool :=
  (symlink, st.2 || String.eqb (Link symlink) link).

Definition matchingSymlink (link : string) (symlinks : list Symlink) : option Symlink :=
  let '(symlink, found) := fold_left (matchStep link) symlinks (mkSymlink "" "", false) in
  if found then Some symlink else None.

(** The loop of [removeFromConfiguration]: the index of the last record equal
    to [unexpanded], [-1] when there is none ([i] is the index of the head). *)
Fixpoint lastIndex (unexpanded : Symlink) (symlinks : list Symlink) (i index : Z) : Z :=
  match symlinks with
  | [] => index
  | s :: rest =>
      lastIndex unexpanded rest (i + 1)%Z (if sameSymlink unexpanded s then i else index)
  end.

(** [removeFromConfiguration].  It calls [file.ReadToml] itself and tests the
    error against [ErrNoSuchFile] only. *)
Definition removeFromConfiguration (symlink : Symlink)
  : M W (option Symlink * option error) :=
  let* (config, err) := callReadToml (configFile mgr) in
  if bool_decide (err = Some ErrNoSuchFile) then ret (None, None) else
  let unexpanded := LinkManager.Unexpand (LinkManager mgr) symlink in
  let index := lastIndex unexpanded (Symlinks config) 0 (-1) in
  if (index <? 0)%Z then ret (Some unexpanded, None) else
  let config :=
    mkConfig (take (Z.to_nat index) (Symlinks config)
              ++ drop (Z.to_nat index + 1) (Symlinks config)) in
  let* err := callSaveToml config (configFile mgr) in
  ret (Some unexpanded, err).

(** [Remove].  A failed read of the configuration is only logged. *)
Definition Remove (link : string) : M W (option error) :=
  let* res := callAsAbsolute link in
  match res with
  | Err err => ret (Some err)
  | Ok absLink =>
      let* (cfg, err) := readConfiguration in
      let link := UnexpandHome absLink (UserHome (config mgr)) in
      match matchingSymlink link (Symlinks cfg) with
      | None =>
          ret (Some (Errorf ("unable to find link " +:+ link +:+ " in configuration")))
      | Some matching =>
          let symlink := LinkManager.Expand (LinkManager mgr) matching in
          let* res := callRemove absLink (Target symlink) in
          match res with
          | Err err => ret (Some (Wrapf err ("failed to remove link " +:+ link)))
          | Ok s =>
              let* (removedLink, err) := removeFromConfiguration s in
              ret err
          end
      end
  end.

(** [Name]. *)
Definition Name : string := "symlink".

(** [Dump]: [return "", nil]. *)
Definition Dump : M W (string * option error) := ret ("", None).

(** [Update] and [Ensure]: [return nil]. *)
Definition Update : M W (option error) := ret None.

Definition Ensure : M W (option error) := ret None.

End Manager.
Arguments t W : clear implicits.
End Manager.

(** ** An in-memory instance of the collaborators

    The link manager, the packages [file] and [path] (but for the two
    functions above) and the in-memory filesystem of the tests
    ([billy]'s [memfs]) are not in the sources.  This instance follows the
    specification of the Link Manager and of the persistence collaborator, and
    serves to run the manager on concrete filesystems. *)

Module memfs.

(** The content of a regular file: text, or the encoding of a [Config]
    ([file.SaveToml] writes it, [file.ReadToml] decodes it). *)
Inductive data :=
| Text (s : string)
| Toml (c : Config).

Inductive node :=
| Dir
| File (d : data)
| SymlinkTo (target : string).

#[global] Instance data_eq_dec : EqDecision data.
Proof. solve_decision. Defined.

#[global] Instance node_eq_dec : EqDecision node.
Proof. solve_decision. Defined.

Abbreviation FS := (gmap string node).

(** [filepath.IsAbs] on Unix. *)
Definition IsAbs (p : string) : bool := strings.HasPrefix p "/".

(** The proper ancestors of a path, outermost first:
    ["/a/b/c"] has ["/a"] and ["/a/b"]. *)
Fixpoint ancestors (pre s : string) : list string :=
  match s with
  | EmptyString => []
  | String c s' =>
      (if Ascii.eqb c "/"%char && negb (String.eqb pre "") then [pre] else [])
      ++ ancestors (pre +:+ String c EmptyString) s'
  end.

Definition mkdir (st : option error * FS) (d : string) : option error * FS :=
  match st with
  | (Some err, w) => (Some err, w)
  | (None, w) =>
      match w !! d with
      | None => (None, <[d := Dir]> w)
      | Some Dir => (None, w)
      | Some _ => (Some (Errorf ("mkdir " +:+ d +:+ ": not a directory")), w)
      end
  end.

(** [path.CreateNecessaryDirectories] (src/run/run.go) on this filesystem:
    [fs.MkdirAll(filepath.Dir(file), os.ModePerm)], for a clean path (no
    doubled separator, no [.] or [..] element): [filepath.Dir] cleans the
    path it returns and [ancestors] reads the path as it is written.  A
    regular file in the place of a directory makes it fail, as [os.MkdirAll]
    does on a disk. *)
Definition CreateNecessaryDirectories (w : FS) (file : string) : option error * FS :=
  fold_left mkdir (ancestors "" file) (None, w).

(** Modelled from the spec: [path.AsAbsolute] is not in the sources.  "Resolve
    [targetInput] to an absolute path relative to the working directory; fail
    with "target does not exist" if resolution finds no such path." *)
Definition AsAbsolute (w : FS) (workingDir p : string) : result string :=
  let abs := if IsAbs p then p else workingDir +:+ "/" +:+ p in
  match w !! abs with
  | Some _ => Ok abs
  | None => Err (Errorf ("file does not exist: " +:+ abs))
  end.

(** Modelled from the spec: [file.ReadToml] is not in the sources.  It "fails
    with a distinguished "no such file" condition when absent"; what is not
    the encoding of a [Config] does not decode. *)
Definition ReadToml (w : FS) (file : string) : Config * option error :=
  match w !! file with
  | None => (mkConfig [], Some ErrNoSuchFile)
  | Some (File (Toml c)) => (c, None)
  | Some _ => (mkConfig [], Some (Errorf ("unable to decode " +:+ file)))
  end.

(** Modelled from the spec: [file.SaveToml] is not in the sources.  It writes
    the encoding of the value to the file, and fails where a file cannot be
    written. *)
Definition SaveToml (w : FS) (c : Config) (file : string) : option error * FS :=
  match w !! file with
  | Some Dir | Some (SymlinkTo _) =>
      (Some (Errorf ("unable to write " +:+ file)), w)
  | _ =>
      match CreateNecessaryDirectories w file with
      | (Some err, w') => (Some err, w')
      | (None, w') => (None, <[file := File (Toml c)]> w')
      end
  end.

Lemma ReadToml_no_file (w : FS) (file : string) :
  (ReadToml w file).2 = Some ErrNoSuchFile -> (ReadToml w file).1 = mkConfig [].
Proof.
  unfold ReadToml. destruct (w !! file) as [[| [s | c] | t] |]; simpl; congruence.
Qed.

#[global] Instance pkg : pkg.t FS := {|
  pkg.AsAbsolute := AsAbsolute;
  pkg.ReadToml := ReadToml;
  pkg.SaveToml := SaveToml;
  pkg.ReadToml_no_file := ReadToml_no_file;
|}.

End memfs.


(** The link manager that [NewLinkManager] builds, on the in-memory
    filesystem. *)
Module linkManager.
Import memfs.

Section LinkManager.
Variable c : conf_Config.

(** The path of [p] relative to [root]: what follows [root] in [p], when [p]
    is [root] or lies under it. *)
Definition relativeTo (root p : string) : option string :=
  if strings.HasPrefix p root then
    let rest := strings.slice_from (String.length root) p in
    if String.eqb rest "" || strings.HasPrefix rest "/" then Some rest else None
  else None.

(** One derivation of [New]: [p], when absolute and under [from], re-rooted
    under [to]; the empty string otherwise. *)
Definition derive (from to p : string) : string :=
  if IsAbs p then
    match relativeTo from p with
    | Some rest => to +:+ rest
    | None => ""
    end
  else "".

(** Modelled from the spec: [LinkManager.New] is not in the sources (its
    tests are, src/pkg/mgr/symlink/symlink_test.go).  "If both non-empty:
    return [{target, link}] unchanged.  If [link] is empty and [target] is
    non-empty and absolute: derive [link] by taking the path of [target]
    relative to the dotfiles root and re-rooting it under the user's home
    directory.  If [target] is not relative to the dotfiles root, [link]
    remains empty."  And the same for an empty [target], from [link], the
    home directory and the dotfiles root. *)
Definition New (target link : string) : Symlink :=
  match String.eqb target "", String.eqb link "" with
  | false, false => mkSymlink target link
  | false, true => mkSymlink target (derive (Dotfiles c) (UserHome c) target)
  | true, false => mkSymlink (derive (UserHome c) (Dotfiles c) link) link
  | true, true => mkSymlink target link
  end.

(** Modelled from the spec: [LinkManager.Expand] and [LinkManager.Unexpand]
    are not in the sources.  The substitution of package [path], "applied
    independently to [Target] and [Link]". *)
Definition Expand (s : Symlink) : Symlink :=
  mkSymlink (ExpandHome (Target s) (UserHome c)) (ExpandHome (Link s) (UserHome c)).

Definition Unexpand (s : Symlink) : Symlink :=
  mkSymlink (UnexpandHome (Target s) (UserHome c)) (UnexpandHome (Link s) (UserHome c)).

(** Modelled from the spec: [LinkManager.Ensure] is not in the sources.  The
    decision table of the specification: a link already pointing to the
    target is left alone; a link to another path is removed and created
    again; a regular file or directory is refused; an absent link is created
    after its parent directories.  (The test suite of the link manager has one
    more case, a regular file at the link with nothing at the target, which
    it expects to succeed; the table has no such row and the model follows
    the table.) *)
Definition Ensure (s : Symlink) (w : FS) : option error * FS :=
  match w !! Link s with
  | Some (SymlinkTo t) =>
      if String.eqb t (Target s) then (None, w)
      else (None, <[Link s := SymlinkTo (Target s)]> (delete (Link s) w))
  | Some _ =>
      (Some (Errorf (Link s +:+ " already exists, refuse to overwrite")), w)
  | None =>
      match CreateNecessaryDirectories w (Link s) with
      | (Some err, w') => (Some err, w')
      | (None, w') => (None, <[Link s := SymlinkTo (Target s)]> w')
      end
  end.

(** Modelled from the spec: [LinkManager.Remove] is not in the sources.  It
    "reads the existing filesystem symlink at [link], captures its current
    target, deletes the symlink entry only", and fails "if [link] does not
    exist or is not itself a symbolic link".  The specification gives it the
    link only; the second argument of mgr.go is not used. *)
Definition Remove (link target : string) (w : FS) : result Symlink * FS :=
  match w !! link with
  | Some (SymlinkTo t) => (Ok (mkSymlink t link), delete link w)
  | Some _ => (Err (Errorf (link +:+ " is not a symlink")), w)
  | None => (Err (Errorf (link +:+ " does not exist")), w)
  end.

End LinkManager.

Definition NewLinkManager (c : conf_Config) : LinkManager.t FS := {|
  LinkManager.New := New c;
  LinkManager.Remove := Remove;
  LinkManager.Ensure := Ensure;
  LinkManager.Expand := Expand c;
  LinkManager.Unexpand := Unexpand c;
|}.

End linkManager.

(** ** The survey of symbolic links

    Modelled from the spec: the function that walks directories for symbolic
    links, which src/cmd/dump.go calls as [symlink.Dump(directories, depth,
    punktHome, dotfiles)], is not in the sources (the method [Dump] of the
    manager in mgr.go is another function, of no argument).  "[Dump(searchRoots
    []string, maxDepth int) -> SymlinkSet]: walks each root directory up to
    [maxDepth] levels, identifying filesystem entries that are symbolic
    links; for each discovered symlink, construct a record via Link Manager
    [New], [Unexpand] it, and add to the result set if not already present by
    [(Target, Link)] equality."

    The walk is read as [filepath.Walk] works: the entries of a root
    directory are at the first level, a directory is entered and a symbolic
    link is not followed.  [New] is given what the link points to as target
    and the path of the link as link. *)
Module survey.
Import memfs.

(** [filepath.Dir] of a clean absolute path. *)
Definition parent (p : string) : option string :=
  match last (ancestors "" p) with
  | Some d => Some d
  | None => if IsAbs p && negb (String.eqb p "/") then Some "/" else None
  end.

(** The entries of a directory. *)
Definition entries (w : FS) (dir : string) : list (string * node) :=
  filter (fun e => parent e.1 = Some dir) (map_to_list w).

(** The symbolic links found from [dir] within [levels] levels, each with the
    path it points to. *)
Fixpoint walk (w : FS) (levels : nat) (dir : string) : list (string * string) :=
  match levels with
  | O => []
  | S levels' =>
      entries w dir ≫= fun e =>
        match e.2 with
        | SymlinkTo t => [(e.1, t)]
        | Dir => walk w levels' e.1
        | File _ => []
        end
  end.

(** What the walk finds, said without the walk: the symbolic link [p] to [t]
    is within [levels] levels of [dir] when it is an entry of [dir], or within
    one level less of a directory that is an entry of [dir]. *)
Inductive Within (w : FS) : nat -> string -> string -> string -> Prop :=
| within_entry levels dir p t :
    w !! p = Some (SymlinkTo t) -> parent p = Some dir ->
    Within w (S levels) dir p t
| within_directory levels dir d p t :
    w !! d = Some Dir -> parent d = Some dir -> Within w levels d p t ->
    Within w (S levels) dir p t.

Section Dump.
Variable lm : LinkManager.t FS.

Definition discovered (searchRoots : list string) (maxDepth : Z) (w : FS)
    : list (string * string) :=
  searchRoots ≫= fun root =>
    match w !! root with
    | Some Dir => walk w (Z.to_nat maxDepth) root
    | _ => []
    end.

Definition record (found : string * string) : Symlink :=
  LinkManager.Unexpand lm (LinkManager.New lm found.2 found.1).

Definition add (set : list Symlink) (s : Symlink) : list Symlink :=
  if existsb (sameSymlink s) set then set else set ++ [s].

Definition Dump (searchRoots : list string) (maxDepth : Z) (w : FS) : list Symlink :=
  fold_left add (record <$> discovered searchRoots maxDepth w) [].

End Dump.

End survey.

(** [NewManager]. *)
Definition NewManager (c : conf_Config) (configFile : string) : Manager.t memfs.FS :=
  Manager.mk (linkManager.NewLinkManager c) configFile c.

(** The setting of the test suites: home [/home], dotfiles [/home/.dotfiles],
    configuration file [/home/.config/punkt/symlinks.toml]. *)
Module fixture.

Definition config : conf_Config :=
  mkConf "/home" "/home/.config/punkt" "/home/.dotfiles" "/home".

Definition configFile : string := "/home/.config/punkt/symlinks.toml".

Definition mgr : Manager.t memfs.FS := NewManager config configFile.

Definition run {A} (m : M memfs.FS A) (w : memfs.FS) : A * Run memfs.FS :=
  m (mkRun w []).

Definition Add (target newLocation : string) := Manager.Add mgr target newLocation.

Definition Remove (link : string) := Manager.Remove mgr link.

Definition Dump := Manager.Dump (W := memfs.FS).

(** The record of [/home/.vimrc], as stored and as used on the filesystem. *)
Definition stored : Symlink := mkSymlink "~/.dotfiles/.vimrc" "~/.vimrc".

Definition expanded : Symlink := mkSymlink "/home/.dotfiles/.vimrc" "/home/.vimrc".

(** A home directory where [/home/.vimrc] is a regular file. *)
Definition plain : memfs.FS :=
  {[ "/home" := memfs.Dir;
     "/home/.vimrc" := memfs.File (memfs.Text "set nocp") ]}.

(** A home directory where [/home/.vimrc] is a link to an old place. *)
Definition stale : memfs.FS :=
  {[ "/home" := memfs.Dir;
     "/home/old" := memfs.Dir;
     "/home/old/vimrc" := memfs.File (memfs.Text "set nocp");
     "/home/.vimrc" := memfs.SymlinkTo "/home/old/vimrc" ]}.

(** The same, with a configuration file that does not decode (as in the test
    "should fail if the stored config can't be parsed"). *)
Definition stale_undecodable : memfs.FS :=
  <[ "/home/.config/punkt/symlinks.toml" := memfs.File (memfs.Text "foo") ]> stale.

(** The same, with a regular file where the directory of the configuration
    file should be: the configuration file cannot be created. *)
Definition stale_unwritable : memfs.FS :=
  <[ "/home/.config" := memfs.File (memfs.Text "") ]> stale.

(** The record is stored, and the link is stale. *)
Definition stored_stale : memfs.FS :=
  <[ "/home/.config/punkt/symlinks.toml" := memfs.File (memfs.Toml (mkConfig [stored])) ]>
    stale.

(** A home directory with three symbolic links, one, two and three levels
    down, and a configuration file. *)
Definition linked_home : memfs.FS :=
  {[ "/home" := memfs.Dir;
     "/home/.vimrc" := memfs.SymlinkTo "/home/.dotfiles/.vimrc";
     "/home/.config" := memfs.Dir;
     "/home/.config/git" := memfs.SymlinkTo "/home/.dotfiles/git";
     "/home/.config/nvim" := memfs.Dir;
     "/home/.config/nvim/init.vim" := memfs.SymlinkTo "/home/.dotfiles/init.vim";
     "/home/.config/punkt" := memfs.Dir;
     "/home/.config/punkt/symlinks.toml" := memfs.File (memfs.Toml (mkConfig []));
     "/home/.dotfiles" := memfs.Dir;
     "/home/.dotfiles/.vimrc" := memfs.File (memfs.Text "set nocp") ]}.

Definition Survey := survey.Dump (linkManager.NewLinkManager config).

(** The record is stored, and nothing is where the link should be. *)
Definition stored_missing : memfs.FS :=
  {[ "/home" := memfs.Dir;
     "/home/.dotfiles" := memfs.Dir;
     "/home/.dotfiles/.vimrc" := memfs.File (memfs.Text "set nocp");
     "/home/.config/punkt/symlinks.toml" := memfs.File (memfs.Toml (mkConfig [stored])) ]}.

(** The record is stored, and a regular file stands where the link should be
    (the scenario of "Remove atomicity"). *)
Definition stored_plain : memfs.FS :=
  <[ "/home/.config/punkt/symlinks.toml" := memfs.File (memfs.Toml (mkConfig [stored])) ]>
    plain.

End fixture.

(** ** Package [generic] (src/mgr/generic/generic.go) *)

(** [strings.Join(elems, sep)]. *)
Fixpoint strings_Join (elems : list string) (sep : string) : string :=
  match elems with
  | [] => ""
  | [e] => e
  | e :: rest => e +:+ sep +:+ strings_Join rest sep
  end.

Module generic.
Section generic.
Context {W Cmd : Type}.

(** [run.Run], with the error generic.go expects of it: it runs the command. *)
Variable run_Run : Cmd -> W -> option error * W.

(** The fields of [conf.Config] this package reads: the commands of every
    manager, and the function that builds a command from a program and its
    arguments. *)
Record conf := mkConf {
  Managers : gmap string (gmap string string);
  Command : string -> list string -> Cmd;
}.

(** The struct [Manager].  [PrintOutputToUser] sets fields of the command it is
    given: it returns the command.  [WithCapture] runs the command and gives
    what it wrote ([stdout.String()]) or an error. *)
Record t := mk {
  PrintOutputToUser : Cmd -> Cmd;
  WithCapture : Cmd -> W -> result string * W;
  name : string;
  config : conf;
  commands : gmap string string;
  configFile : string;
}.

(** [NewManager]; a manager that [c.Managers] does not have gets the nil map. *)
Definition NewManager (printOutputToUser : Cmd -> Cmd)
    (withCapture : Cmd -> W -> result string * W)
    (c : conf) (configFile name : string) : t :=
  mk printOutputToUser withCapture name c (default ∅ (Managers c !! name)) configFile.

Variable mgr : t.

(** [resolveCommand].  A key the map does not have reads as the empty
    string. *)
Definition resolveCommand (operation : string) (args : list string) : Cmd :=
  let '(name, args) :=
    match commands mgr !! operation with
    | Some val => (val, args)
    | None => (default "" (commands mgr !! "command"), operation :: args)
    end in
  let command := strings_Join (name :: args) " " in
  Command (config mgr) "sh" ["-c"; command].

(** [Name]. *)
Definition Name : string := name mgr.

(** [Dump]. *)
Definition Dump (w : W) : (string * option error) * W :=
  let cmd := resolveCommand "dump" [] in
  match WithCapture mgr cmd w with
  | (Err err, w') =>
      (("", Some (Wrapf err ("failed to run command for manager: " +:+ Name))), w')
  | (Ok stdout, w') => ((stdout, None), w')
  end.

(** [Update]. *)
Definition Update (w : W) : option error * W :=
  let cmd := resolveCommand "ensure" [configFile mgr] in
  run_Run (PrintOutputToUser mgr cmd) w.

(** [Ensure]. *)
Definition Ensure (w : W) : option error * W :=
  let cmd := resolveCommand "ensure" [configFile mgr] in
  run_Run (PrintOutputToUser mgr cmd) w.

End generic.
Arguments t W Cmd : clear implicits.
Arguments conf Cmd : clear implicits.
End generic.

(** ** Package [mgr]: the root manager
    (in src/pkg/mgr/symlink/symlink_test.go, from [package mgr] on) *)

(** What a Go call gives: the values it returns, or a run-time panic. *)
Inductive outcome (A : Type) :=
| Returns (a : A)
| Panics.
Arguments Returns {A} a.
Arguments Panics {A}.

Module RootManager.
Section RootManager.
Context {W : Type} {P : pkg.t W}.

(** [filepath.Join] of two elements, and [file.Save(fs, content, path)]:
    not in the sources. *)
Variable filepath_Join : string -> string -> string.
Variable file_Save : W -> string -> string -> option error * W.

(** The interface [Manager]. *)
Record Manager := mkManager {
  Name : string;
  Dump : W -> (string * option error) * W;
  Ensure : W -> option error * W;
  Update : W -> option error * W;
}.

(** The struct [RootManager]. *)
Record t := mk {
  LinkManager : LinkManager.t W;
  config : conf_Config;
}.

Variable rootMgr : t.

(** [ConfigFile]. *)
Definition ConfigFile (name : string) : string :=
  filepath_Join (PunktHome (config rootMgr)) (name +:+ ".toml").

(** The error a loop accumulates with [multierror.Append]: the list of the
    errors appended, [nil] being the empty list. *)
Definition multierror_Append (result : list error) (err : error) : list error :=
  result ++ [err].

(** [Update]: the loop over [mgrs], from a manager on, with [result] so far. *)
Fixpoint UpdateFrom (mgrs : list Manager) (result : list error) (w : W)
  : list error * W :=
  match mgrs with
  | [] => (result, w)
  | m :: rest =>
      let '(err, w) := Update m w in
      match err with
      | Some e =>
          UpdateFrom rest
            (multierror_Append result
               (Wrapf e ("update failed [manager: " +:+ Name m +:+ "]"))) w
      | None => UpdateFrom rest result w
      end
  end.

Definition UpdateAll (mgrs : list Manager) (w : W) : list error * W :=
  UpdateFrom mgrs [] w.

(** [Dump]: the loop over [mgrs]. *)
Fixpoint DumpFrom (mgrs : list Manager) (result : list error) (w : W)
  : list error * W :=
  match mgrs with
  | [] => (result, w)
  | m :: rest =>
      let '((out, err), w) := Dump m w in
      match err with
      | Some e =>
          DumpFrom rest
            (multierror_Append result
               (Wrapf e ("dump failed [manager: " +:+ Name m +:+ "]"))) w
      | None =>
          let '(err, w) := file_Save w out (ConfigFile (Name m)) in
          match err with
          | Some e =>
              DumpFrom rest
                (multierror_Append result
                   (Wrapf e ("failed to save configuration [manager: "
                             +:+ Name m +:+ "]"))) w
          | None => DumpFrom rest result w
          end
      end
  end.

Definition DumpAll (mgrs : list Manager) (w : W) : list error * W :=
  DumpFrom mgrs [] w.

(** [readSymlinks].  [ManagerConfig] has the one field [Symlinks], as
    [symlink.Config] has, and is decoded alike.  The inner test is the one of
    the source. *)
Definition readSymlinks (name : string) (w : W) : result (list Symlink) :=
  let '(config, err) := pkg.ReadToml w (ConfigFile name) in
  match err with
  | Some e =>
      if negb (isErrNoSuchFile e) then
        if isErrNoSuchFile e then Ok [] else Err e
      else Ok (Symlinks config)
  | None => Ok (Symlinks config)
  end.

(** [Ensure]: the inner loop, over the symlinks of one manager.  Its index is
    declared as [i], as the index of the loop over the managers is: in its
    body [mgrs[i]] is the manager at the index of the symlink, and indexing
    past the end of [mgrs] panics.  [symlinks[i]] is formatted with [%v], by
    [Symlink.String]. *)
Fixpoint ensureSymlinks (mgrs : list Manager) (symlinks : list Symlink) (i : nat)
    (result : list error) (w : W) : outcome (list error * W) :=
  match symlinks with
  | [] => Returns (result, w)
  | symlink :: rest =>
      let expanded := LinkManager.Expand (LinkManager rootMgr) symlink in
      let '(err, w) := LinkManager.Ensure (LinkManager rootMgr) expanded w in
      match err with
      | Some e =>
          match mgrs !! i with
          | Some m =>
              ensureSymlinks mgrs rest (S i)
                (multierror_Append result
                   (Wrapf e ("unable to ensure symlink [manager: " +:+ Name m
                             +:+ ", symlink: " +:+ Symlink_String symlink +:+ "]"))) w
          | None => Panics
          end
      | None => ensureSymlinks mgrs rest (S i) result w
      end
  end.

(** [Ensure]: the loop over the managers, [mgrs] being all of them and [from]
    those left. *)
Fixpoint EnsureFrom (mgrs from : list Manager) (result : list error) (w : W)
  : outcome (list error * W) :=
  match from with
  | [] => Returns (result, w)
  | m :: rest =>
      let '(err, w) := Ensure m w in
      match err with
      | Some e =>
          EnsureFrom mgrs rest
            (multierror_Append result
               (Wrapf e ("ensure failed [manager: " +:+ Name m +:+ "]"))) w
      | None =>
          match readSymlinks (Name m) w with
          | Err e =>
              EnsureFrom mgrs rest
                (multierror_Append result
                   (Wrapf e ("unable to get symlinks [manager: " +:+ Name m +:+ "]"))) w
          | Ok symlinks =>
              match ensureSymlinks mgrs symlinks 0 result w with
              | Panics => Panics
              | Returns (result, w) => EnsureFrom mgrs rest result w
              end
          end
      end
  end.

Definition EnsureAll (mgrs : list Manager) (w : W) : outcome (list error * W) :=
  EnsureFrom mgrs mgrs [] w.

End RootManager.
Arguments t W : clear implicits.
Arguments Manager W : clear implicits.
End RootManager.

(** ** Package [git]: the manager of repositories
    (in src/pkg/mgr/symlink/symlink_test.go, from [package git] on) *)

Module git.
Section git.

(** [W] is the state of the filesystem; [GitConf] is [gitconf.Config], which
    the manager only carries around. *)
Context {W GitConf : Type}.

(** [symlink.Config]. *)
Local Abbreviation symlink_Config := Config.

(** Repo describes a git repository. *)
Record Repo := mkRepo { Name : string; Path : string; Config_ : GitConf }.

(** The struct [Config] of this package. *)
Record Config := mkConfig' { Symlinks' : symlink_Config; Repositories : list Repo }.

(** [snapshot.ReadToml] and [snapshot.SaveToml] at this [Config]: not in the
    sources.  [ReadToml] returns the destination, which starts as the zero
    [Config], with the error. *)
Variable ReadToml : W -> string -> Config * option error.
Variable SaveToml : W -> Config -> string -> option error * W.

(** The interface [RepoManager], as far as [Add] uses it. *)
Record RepoManager := mkRepoManager {
  Dump : string -> W -> result Repo * W;
}.

(** The struct [Manager], as far as [Add] and [Remove] use it. *)
Record t := mk {
  RepoManager_ : RepoManager;
  configFile : string;
}.

Variable mgr : t.

(** [ErrRepositoryNotFoundInConfig]. *)
Definition ErrRepositoryNotFoundInConfig : error :=
  Errorf "repository not found in config".

(** [readConfig]: every error of the read is dropped. *)
Definition readConfig (w : W) : Config :=
  let '(config, err) := ReadToml w (configFile mgr) in
  if bool_decide (err = Some ErrNoSuchFile) then mkConfig' (mkConfig []) []
  else config.

(** [Add]. *)
Definition Add (path : string) (w : W) : option error * W :=
  match Dump (RepoManager_ mgr) path w with
  | (Err err, w) =>
      (Some (Wrapf err ("failed to dump repository at path: " +:+ path)), w)
  | (Ok repo, w) =>
      let config := readConfig w in
      let config := mkConfig' (Symlinks' config) (Repositories config ++ [repo]) in
      SaveToml w config (configFile mgr)
  end.

(** The loop of [Remove]: the index of the last repository with the path,
    [-1] when there is none ([i] is the index of the head). *)
Fixpoint lastIndex (path : string) (repos : list Repo) (i index : Z) : Z :=
  match repos with
  | [] => index
  | repo :: rest =>
      lastIndex path rest (i + 1)%Z (if String.eqb (Path repo) path then i else index)
  end.

(** [Remove]. *)
Definition Remove (path : string) (w : W) : option error * W :=
  let config := readConfig w in
  let index := lastIndex path (Repositories config) 0 (-1) in
  if (index <? 0)%Z then (Some ErrRepositoryNotFoundInConfig, w) else
  let config :=
    mkConfig' (Symlinks' config)
      (take (Z.to_nat index) (Repositories config)
       ++ drop (Z.to_nat index + 1) (Repositories config)) in
  SaveToml w config (configFile mgr).

End git.
Arguments Repo GitConf : clear implicits.
Arguments Config GitConf : clear implicits.
Arguments RepoManager W GitConf : clear implicits.
Arguments t W GitConf : clear implicits.
End git.

(** More filesystems for the manager of [fixture]. *)
Module scenario.

(** A second record, of [/home/.bashrc]. *)
Definition other : Symlink := mkSymlink "~/.dotfiles/.bashrc" "~/.bashrc".

(** The record of [/home/.vimrc] is stored and its link is in place. *)
Definition linked : memfs.FS :=
  {[ "/home" := memfs.Dir;
     "/home/.vimrc" := memfs.SymlinkTo "/home/.dotfiles/.vimrc";
     fixture.configFile := memfs.File (memfs.Toml (mkConfig [fixture.stored])) ]}.

(** Two records are stored, that of [/home/.vimrc] first, and both links are
    in place. *)
Definition two_records : memfs.FS :=
  {[ "/home" := memfs.Dir;
     "/home/.vimrc" := memfs.SymlinkTo "/home/.dotfiles/.vimrc";
     "/home/.bashrc" := memfs.SymlinkTo "/home/.dotfiles/.bashrc";
     fixture.configFile := memfs.File (memfs.Toml (mkConfig [fixture.stored; other])) ]}.

(** A root manager over the link manager of [fixture], two managers that do
    nothing, and a filesystem where the first of them has two symlinks, the
    second of which cannot be ensured (a regular file stands at its link). *)
Definition join (dir name : string) : string := dir +:+ "/" +:+ name.

Definition root : RootManager.t memfs.FS :=
  RootManager.mk (linkManager.NewLinkManager fixture.config) fixture.config.

Definition idle (name : string) : RootManager.Manager memfs.FS :=
  RootManager.mkManager name (fun w => (("", None), w)) (fun w => (None, w))
    (fun w => (None, w)).

Definition brew_links : memfs.FS :=
  {[ "/home" := memfs.Dir;
     "/home/.vimrc" := memfs.SymlinkTo "/home/.dotfiles/.vimrc";
     "/home/.bashrc" := memfs.File (memfs.Text "alias ll=ls");
     "/home/.config/punkt/brew.toml"
       := memfs.File (memfs.Toml (mkConfig [fixture.stored; other])) ]}.

(** A store for the configuration of the git manager: one file, missing,
    holding a configuration, or holding what does not decode. *)
Inductive git_store :=
| Missing
| Holds (c : git.Config unit)
| Undecodable.

Definition git_read (w : git_store) (file : string) : git.Config unit * option error :=
  match w with
  | Missing => (git.mkConfig' (mkConfig []) [], Some ErrNoSuchFile)
  | Holds c => (c, None)
  | Undecodable => (git.mkConfig' (mkConfig []) [], Some (Errorf "unable to decode"))
  end.

Definition git_save (w : git_store) (c : git.Config unit) (file : string)
  : option error * git_store :=
  (None, Holds c).

(** A repository manager that finds a repository at every path. *)
Definition repos : git.RepoManager git_store unit :=
  git.mkRepoManager (fun path w => (Ok (git.mkRepo "origin" path tt), w)).

Definition git_mgr : git.t git_store unit := git.mk repos "/home/.config/punkt/git.toml".

(** The record of [/home/.bashrc] is stored, and [/home/.vimrc] is a link to
    an old place. *)
Definition other_stored : memfs.FS :=
  <[ fixture.configFile := memfs.File (memfs.Toml (mkConfig [other])) ]> fixture.stale.

End scenario.

(** * Properties *)

(** ** Strings *)

Section StringFacts.

Lemma append_nil (r : string) : "" +:+ r = r.
Proof. reflexivity. Qed.

Lemma append_cons (a : ascii) (p r : string) :
  String a p +:+ r = String a (p +:+ r).
Proof. reflexivity. Qed.

Lemma append_assoc (a b c : string) : (a +:+ b) +:+ c = a +:+ (b +:+ c).
Proof.
  induction a as [| x a IH]; [reflexivity |].
  rewrite !append_cons. congruence.
Qed.

Lemma length_append (p r : string) :
  String.length (p +:+ r) = String.length p + String.length r.
Proof.
  induction p as [| a p IH]; [reflexivity |].
  rewrite append_cons. simpl. congruence.
Qed.

Lemma HasPrefix_app (p r : string) : strings.HasPrefix (p +:+ r) p = true.
Proof.
  induction p as [| a p IH]; [reflexivity |].
  rewrite append_cons. simpl. rewrite Ascii.eqb_refl. exact IH.
Qed.

Lemma HasPrefix_split (s p : string) :
  strings.HasPrefix s p = true -> s = p +:+ strings.slice_from (String.length p) s.
Proof.
  revert s. induction p as [| a p IH]; intros s H; [reflexivity |].
  destruct s as [| b s]; [discriminate |]. simpl in H.
  apply andb_prop in H as [Hab Hp].
  apply Ascii.eqb_eq in Hab. subst b.
  rewrite append_cons. simpl. f_equal. apply IH, Hp.
Qed.

Lemma slice_from_app (p r : string) :
  strings.slice_from (String.length p) (p +:+ r) = r.
Proof.
  induction p as [| a p IH]; [reflexivity |].
  rewrite append_cons. simpl. exact IH.
Qed.

Lemma slice_to_app (p r : string) :
  strings.slice_to (String.length p) (p +:+ r) = p.
Proof.
  induction p as [| a p IH]; [destruct r; reflexivity |].
  rewrite append_cons. simpl. congruence.
Qed.

Lemma Index_ge (s old : string) : (-1 <= strings.Index s old)%Z.
Proof.
  induction s as [| a s IH]; simpl.
  - destruct (strings.HasPrefix "" old); lia.
  - destruct (strings.HasPrefix (String a s) old); [lia |].
    destruct (Z.ltb_spec (strings.Index s old) 0); lia.
Qed.

Lemma Index_prefix (p r : string) : strings.Index (p +:+ r) p = 0%Z.
Proof.
  pose proof (HasPrefix_app p r) as H.
  destruct (p +:+ r); simpl; rewrite H; reflexivity.
Qed.

(** Replacing a prefix: the first occurrence of [old] in [old ++ r] is at 0. *)
Lemma Replace1_prefix (old new r : string) :
  strings.Replace1 (old +:+ r) old new = new +:+ r.
Proof.
  unfold strings.Replace1.
  destruct (String.eqb_spec old new) as [-> | _]; [reflexivity |].
  rewrite Index_prefix. simpl. rewrite slice_from_app.
  destruct (old +:+ r); reflexivity.
Qed.

Lemma Index_absent (c : ascii) (s : string) :
  absent c s <-> strings.Index s (String c EmptyString) = (-1)%Z.
Proof.
  induction s as [| b s IH]; simpl; [tauto |].
  destruct (Ascii.eqb_spec c b) as [-> | Hne]; simpl.
  - split; [intros [H _]; congruence | discriminate].
  - pose proof (Index_ge s (String c EmptyString)).
    destruct (Z.ltb_spec (strings.Index s (String c EmptyString)) 0).
    + split; [reflexivity | intros _; split; [congruence | apply IH; lia]].
    + split; [intros [_ H']; apply IH in H'; lia | lia].
Qed.

Lemma Index_first (c : ascii) (pre post : string) :
  absent c pre ->
  strings.Index (pre +:+ String c post) (String c EmptyString)
  = Z.of_nat (String.length pre).
Proof.
  induction pre as [| b pre IH].
  - intros _. rewrite append_nil. simpl. rewrite Ascii.eqb_refl. reflexivity.
  - intros [Hne Habs]. rewrite append_cons. simpl.
    destruct (Ascii.eqb_spec c b) as [-> | _]; [congruence |]. simpl.
    rewrite (IH Habs).
    destruct (Z.ltb_spec (Z.of_nat (String.length pre)) 0); lia.
Qed.

(** Replacing a single byte: what stands before its first occurrence and
    what follows it are kept as they are. *)
Lemma Replace1_first (c : ascii) (new pre post : string) :
  absent c pre ->
  strings.Replace1 (pre +:+ String c post) (String c EmptyString) new
  = pre +:+ new +:+ post.
Proof.
  intros Habs. unfold strings.Replace1.
  destruct (String.eqb_spec (String c EmptyString) new) as [<- | _]; [reflexivity |].
  rewrite (Index_first _ _ _ Habs).
  destruct (Z.ltb_spec (Z.of_nat (String.length pre)) 0); [lia |].
  rewrite Nat2Z.id, slice_to_app.
  replace (String.length pre + String.length (String c EmptyString))
    with (String.length (pre +:+ String c EmptyString)) by apply length_append.
  change (String c post) with (String c EmptyString +:+ post).
  rewrite <- (append_assoc pre (String c EmptyString) post), slice_from_app.
  reflexivity.
Qed.

Lemma Replace1_absent (c : ascii) (new s : string) :
  absent c s -> strings.Replace1 s (String c EmptyString) new = s.
Proof.
  intros Habs. unfold strings.Replace1.
  destruct (String.eqb (String c EmptyString) new); [reflexivity |].
  apply Index_absent in Habs. rewrite Habs. reflexivity.
Qed.

End StringFacts.

(** ** Expand and Unexpand *)

Lemma ExpandHome_UnexpandHome (s home : string) :
  strings.HasPrefix s home = true -> ExpandHome (UnexpandHome s home) home = s.
Proof.
  intros H. apply HasPrefix_split in H.
  set (rest := strings.slice_from (String.length home) s) in H.
  rewrite H. unfold ExpandHome, UnexpandHome.
  rewrite Replace1_prefix, Replace1_prefix. reflexivity.
Qed.

Lemma UnexpandHome_ExpandHome (s home : string) :
  strings.HasPrefix s "~" = true -> UnexpandHome (ExpandHome s home) home = s.
Proof.
  intros H. apply HasPrefix_split in H.
  set (rest := strings.slice_from (String.length "~") s) in H.
  rewrite H. unfold ExpandHome, UnexpandHome.
  rewrite Replace1_prefix, Replace1_prefix. reflexivity.
Qed.

(** C7.  For a symlink whose two fields begin with the home directory,
    expanding its unexpanded form gives it back; for one whose two fields
    begin with [~], unexpanding its expanded form gives it back.  The
    substitution is [path.ExpandHome] / [path.UnexpandHome] applied to
    [Target] and to [Link] independently.  It holds for every home
    directory. *)
Theorem Expand_Unexpand_round_trip (c : conf_Config) (s : Symlink) :
  (strings.HasPrefix (Target s) (UserHome c) = true ->
   strings.HasPrefix (Link s) (UserHome c) = true ->
   linkManager.Expand c (linkManager.Unexpand c s) = s)
  /\
  (strings.HasPrefix (Target s) "~" = true ->
   strings.HasPrefix (Link s) "~" = true ->
   linkManager.Unexpand c (linkManager.Expand c s) = s).
Proof.
  destruct s as [t l]. unfold linkManager.Expand, linkManager.Unexpand. simpl.
  split; intros Ht Hl.
  - rewrite (ExpandHome_UnexpandHome _ _ Ht), (ExpandHome_UnexpandHome _ _ Hl).
    reflexivity.
  - rewrite (UnexpandHome_ExpandHome _ _ Ht), (UnexpandHome_ExpandHome _ _ Hl).
    reflexivity.
Qed.

Lemma Expand_Unexpand_round_trip_witness :
  let c := fixture.config in
  linkManager.Expand c (linkManager.Unexpand c (mkSymlink "/home/.dotfiles/vimrc" "/home/.vimrc"))
  = mkSymlink "/home/.dotfiles/vimrc" "/home/.vimrc"
  /\ linkManager.Unexpand c (mkSymlink "/home/.dotfiles/vimrc" "/home/.vimrc")
     = mkSymlink "~/.dotfiles/vimrc" "~/.vimrc"
  /\ linkManager.Unexpand c (linkManager.Expand c (mkSymlink "~/.dotfiles/vimrc" "~/.vimrc"))
     = mkSymlink "~/.dotfiles/vimrc" "~/.vimrc".
Proof.
  intros c. split; [| split].
  - apply (Expand_Unexpand_round_trip c
             (mkSymlink "/home/.dotfiles/vimrc" "/home/.vimrc")); reflexivity.
  - reflexivity.
  - apply (Expand_Unexpand_round_trip c
             (mkSymlink "~/.dotfiles/vimrc" "~/.vimrc")); reflexivity.
Defined.

(** C8, as the claim states it, fails: a path that does not begin with [~]
    is changed when a [~] stands further on. *)
Lemma ExpandHome_embedded_tilde :
  strings.HasPrefix "/srv/~backup" "~" = false
  /\ ExpandHome "/srv/~backup" "/home" = "/srv//homebackup"
  /\ ExpandHome "/srv/~backup" "/home" <> "/srv/~backup".
Proof. split; [reflexivity | split; [reflexivity | discriminate]]. Qed.

(** C8, amended.  [ExpandHome] replaces the first [~] of a path, wherever it
    stands, by the home directory: what precedes it and what follows it
    (later tildes too) are kept, and a path with no [~] is returned as it is.
    [Expand] does so on [Target] and on [Link] independently. *)
Theorem ExpandHome_first_tilde (home pre post : string) :
  absent "~" pre ->
  ExpandHome pre home = pre
  /\ ExpandHome (pre +:+ "~" +:+ post) home = pre +:+ home +:+ post
  /\ forall c s,
       UserHome c = home ->
       linkManager.Expand c s
       = mkSymlink (ExpandHome (Target s) home) (ExpandHome (Link s) home).
Proof.
  intros Habs. unfold ExpandHome. split; [| split].
  - apply Replace1_absent, Habs.
  - apply (Replace1_first "~" home pre post Habs).
  - intros c s <-. reflexivity.
Qed.

Lemma ExpandHome_first_tilde_witness :
  ExpandHome "/srv/data" "/home" = "/srv/data"
  /\ ExpandHome "~/notes~/a~" "/home" = "/home/notes~/a~"
  /\ ExpandHome "/srv/~backup/~x" "/home" = "/srv//homebackup/~x".
Proof.
  split; [| split].
  - apply (ExpandHome_first_tilde "/home" "/srv/data" "");
      simpl; repeat split; discriminate.
  - apply (ExpandHome_first_tilde "/home" "" "/notes~/a~"). exact I.
  - apply (ExpandHome_first_tilde "/home" "/srv/" "backup/~x");
      simpl; repeat split; discriminate.
Defined.

(** ** Link Manager New *)











(** The cases of the link manager's test suite
    (src/pkg/mgr/symlink/symlink_test.go, context "New"), and two paths that
    begin with the name of a root without being under it. *)
Example New_test_suite :
  linkManager.New fixture.config "/target" "/link" = mkSymlink "/target" "/link"
  /\ Target (linkManager.New fixture.config "" "/home/link") = "/home/.dotfiles/link"
  /\ Link (linkManager.New fixture.config "/home/.dotfiles/link" "") = "/home/link"
  /\ Link (linkManager.New fixture.config "/link" "") = ""
  /\ Target (linkManager.New fixture.config "" ".") = ""
  /\ Link (linkManager.New fixture.config "/home/.dotfiles-old/vimrc" "") = ""
  /\ Target (linkManager.New fixture.config "" "/homework/notes") = "".
Proof. repeat split. Qed.

(** ** The loops of the manager *)

Lemma sameSymlink_eq (a b : Symlink) : sameSymlink a b = true <-> a = b.
Proof.
  destruct a as [ta la], b as [tb lb]. unfold sameSymlink. simpl.
  rewrite andb_true_iff, !String.eqb_eq. split; [intros [-> ->] | intros [= -> ->]]; auto.
Qed.

Lemma existsb_sameSymlink (u : Symlink) (l : list Symlink) :
  existsb (sameSymlink u) l = true <-> u ∈ l.
Proof.
  rewrite existsb_exists. split.
  - intros (x & Hin & Heq). apply sameSymlink_eq in Heq. subst x.
    apply list_elem_of_In, Hin.
  - intros Hin. exists u. split; [apply list_elem_of_In, Hin | apply sameSymlink_eq; auto].
Qed.

Lemma existsb_sameSymlink_false (u : Symlink) (l : list Symlink) :
  existsb (sameSymlink u) l = false <-> u ∉ l.
Proof.
  rewrite <- existsb_sameSymlink. destruct (existsb (sameSymlink u) l); split; congruence.
Qed.

Lemma occurrences_absent (u : Symlink) (l : list Symlink) :
  u ∉ l -> occurrences u l = 0.
Proof.
  unfold occurrences. induction l as [| x l IH]; intros Hnin; [reflexivity |].
  apply not_elem_of_cons in Hnin as [Hne Hnin]. simpl.
  destruct (sameSymlink u x) eqn:E; [apply sameSymlink_eq in E; congruence |].
  apply IH, Hnin.
Qed.

Lemma occurrences_app (u : Symlink) (l k : list Symlink) :
  occurrences u (l ++ k) = occurrences u l + occurrences u k.
Proof. unfold occurrences. rewrite List.filter_app, length_app. reflexivity. Qed.

Lemma occurrences_self (u : Symlink) : occurrences u [u] = 1.
Proof.
  unfold occurrences. simpl.
  destruct (sameSymlink u u) eqn:E; [reflexivity |].
  assert (sameSymlink u u = true) by (apply sameSymlink_eq; reflexivity). congruence.
Qed.

Lemma occurrences_NoDup (u : Symlink) (l : list Symlink) :
  NoDup l -> u ∈ l -> occurrences u l = 1.
Proof.
  induction 1 as [| x l Hx Hnd IH]; intros Hin; [inversion Hin |].
  change (x :: l) with ([x] ++ l). rewrite occurrences_app.
  apply elem_of_cons in Hin as [-> | Hin].
  - rewrite occurrences_self, (occurrences_absent _ _ Hx). reflexivity.
  - rewrite (IH Hin). rewrite (occurrences_absent u [x]); [reflexivity |].
    intros Hux. apply list_elem_of_singleton in Hux. congruence.
Qed.

Lemma NoDup_snoc (u : Symlink) (l : list Symlink) :
  NoDup l -> u ∉ l -> NoDup (l ++ [u]).
Proof.
  intros Hnd Hnin. apply NoDup_app. split; [exact Hnd | split].
  - intros x Hx Hxu. apply list_elem_of_singleton in Hxu. congruence.
  - apply NoDup_singleton.
Qed.

Lemma last_cons (x d : Symlink) (l : list Symlink) :
  List.last (x :: l) d = List.last l x.
Proof.
  revert x d. induction l as [| y l IH]; intros x d; [reflexivity |].
  change (List.last (x :: y :: l) d) with (List.last (y :: l) d).
  rewrite (IH y d), (IH y x). reflexivity.
Qed.

(** The loop of [Remove] ends with the last record in its variable, and with
    the pointer set when some record has the link. *)
Lemma matchStep_fold (link : string) (l : list Symlink) (s0 : Symlink) (b : bool) :
  fold_left (Manager.matchStep link) l (s0, b)
  = (List.last l s0, b || existsb (fun s => String.eqb (Link s) link) l).
Proof.
  revert s0 b. induction l as [| x l IH]; intros s0 b.
  - simpl. rewrite orb_false_r. reflexivity.
  - rewrite last_cons. cbn [fold_left existsb].
    change (Manager.matchStep link (s0, b) x) with (x, b || String.eqb (Link x) link).
    rewrite IH, orb_assoc. reflexivity.
Qed.

Lemma matchingSymlink_None (link : string) (l : list Symlink) :
  Manager.matchingSymlink link l = None <-> forall s, s ∈ l -> Link s <> link.
Proof.
  unfold Manager.matchingSymlink. rewrite matchStep_fold. simpl.
  destruct (existsb _ l) eqn:E.
  - split; [discriminate |]. intros H.
    apply existsb_exists in E as (x & Hin & Heq).
    apply String.eqb_eq in Heq. apply list_elem_of_In in Hin.
    destruct (H x Hin Heq).
  - split; [| reflexivity]. intros _ s Hin Hs.
    assert (existsb (fun s => String.eqb (Link s) link) l = true); [| congruence].
    apply existsb_exists. exists s.
    split; [apply list_elem_of_In, Hin | apply String.eqb_eq, Hs].
Qed.

Lemma matchingSymlink_Some (link : string) (l : list Symlink) (m : Symlink) :
  Manager.matchingSymlink link l = Some m ->
  exists s, s ∈ l /\ Link s = link.
Proof.
  unfold Manager.matchingSymlink. rewrite matchStep_fold. simpl.
  destruct (existsb _ l) eqn:E; [| discriminate]. intros _.
  apply existsb_exists in E as (x & Hin & Heq).
  exists x. split; [apply list_elem_of_In, Hin | apply String.eqb_eq, Heq].
Qed.

(** ** The survey of symbolic links *)

Lemma entries_spec (w : memfs.FS) (dir p : string) (nd : memfs.node) :
  (p, nd) ∈ survey.entries w dir <-> w !! p = Some nd /\ survey.parent p = Some dir.
Proof.
  unfold survey.entries. rewrite list_elem_of_filter, elem_of_map_to_list. simpl. tauto.
Qed.

(** The walk finds the symbolic links that are within its levels, and no
    other. *)
Lemma walk_Within (w : memfs.FS) (levels : nat) (dir p t : string) :
  (p, t) ∈ survey.walk w levels dir <-> survey.Within w levels dir p t.
Proof.
  revert dir. induction levels as [| levels IH]; intros dir; simpl.
  - split; [intros H; inversion H | intros H; inversion H].
  - rewrite list_elem_of_bind. split.
    + intros ([q nd] & Hin & Hentry). apply entries_spec in Hentry as [Hq Hdir].
      simpl in Hin. destruct nd as [| d | t'].
      * apply IH in Hin. eapply survey.within_directory; eauto.
      * inversion Hin.
      * apply list_elem_of_singleton in Hin. injection Hin as -> ->.
        apply survey.within_entry; assumption.
    + intros H. inversion H as [? ? ? ? Hp Hdir | ? ? d ? ? Hd Hdir Hbelow]; subst.
      * exists (p, memfs.SymlinkTo t). split; [apply list_elem_of_singleton; reflexivity |].
        apply entries_spec. auto.
      * exists (d, memfs.Dir). split; [apply IH, Hbelow | apply entries_spec; auto].
Qed.

Lemma fold_add_elem (l acc : list Symlink) (s : Symlink) :
  s ∈ fold_left survey.add l acc <-> s ∈ acc \/ s ∈ l.
Proof.
  revert acc. induction l as [| x l IH]; intros acc; simpl.
  - split; [auto | intros [H | H]; [exact H | inversion H]].
  - rewrite IH, elem_of_cons. unfold survey.add.
    destruct (existsb (sameSymlink x) acc) eqn:E.
    + apply existsb_sameSymlink in E. split; [tauto |].
      intros [H | [-> | H]]; auto.
    + rewrite elem_of_app, list_elem_of_singleton. tauto.
Qed.

Lemma fold_add_NoDup (l acc : list Symlink) :
  NoDup acc -> NoDup (fold_left survey.add l acc).
Proof.
  revert acc. induction l as [| x l IH]; intros acc Hnd; simpl; [exact Hnd |].
  apply IH. unfold survey.add.
  destruct (existsb (sameSymlink x) acc) eqn:E; [exact Hnd |].
  apply NoDup_snoc; [exact Hnd | apply existsb_sameSymlink_false, E].
Qed.

(** Writing a regular file, new or in the place of another, changes neither
    the directories nor the symbolic links. *)
Lemma lookup_beside_file (w : memfs.FS) (file p : string) (d : memfs.data)
    (nd : memfs.node) :
  w !! file = None \/ (exists d0, w !! file = Some (memfs.File d0)) ->
  (forall d0, nd <> memfs.File d0) ->
  <[file := memfs.File d]> w !! p = Some nd <-> w !! p = Some nd.
Proof.
  intros Hfile Hnd. destruct (decide (file = p)) as [-> | Hne].
  - rewrite lookup_insert_eq. split.
    + intros [= <-]. destruct (Hnd d). reflexivity.
    + intros Hp. destruct Hfile as [Hnone | [d0 Hd0]]; [congruence |].
      rewrite Hd0 in Hp. injection Hp as <-. destruct (Hnd d0). reflexivity.
  - rewrite lookup_insert_ne by exact Hne. tauto.
Qed.

Lemma Within_beside_file (w : memfs.FS) (file : string) (d : memfs.data)
    (levels : nat) (dir p t : string) :
  w !! file = None \/ (exists d0, w !! file = Some (memfs.File d0)) ->
  survey.Within (<[file := memfs.File d]> w) levels dir p t
  <-> survey.Within w levels dir p t.
Proof.
  intros Hfile. split.
  - induction 1 as [levels dir p t Hp Hdir | levels dir q p t Hq Hdir _ IH].
    + apply survey.within_entry; [| exact Hdir].
      apply (lookup_beside_file w file p d) in Hp; [exact Hp | exact Hfile | discriminate].
    + apply survey.within_directory with q; [| exact Hdir | exact IH].
      apply (lookup_beside_file w file q d) in Hq; [exact Hq | exact Hfile | discriminate].
  - induction 1 as [levels dir p t Hp Hdir | levels dir q p t Hq Hdir _ IH].
    + apply survey.within_entry; [| exact Hdir].
      apply (lookup_beside_file w file p d); [exact Hfile | discriminate | exact Hp].
    + apply survey.within_directory with q; [| exact Hdir | exact IH].
      apply (lookup_beside_file w file q d); [exact Hfile | discriminate | exact Hq].
Qed.

Lemma discovered_spec (searchRoots : list string) (maxDepth : Z) (w : memfs.FS)
    (p t : string) :
  (p, t) ∈ survey.discovered searchRoots maxDepth w
  <-> exists root, root ∈ searchRoots /\ w !! root = Some memfs.Dir
                   /\ survey.Within w (Z.to_nat maxDepth) root p t.
Proof.
  unfold survey.discovered. rewrite list_elem_of_bind. split.
  - intros (root & Hin & Hroot). exists root.
    destruct (w !! root) as [[| d | t'] |] eqn:E; try (inversion Hin; fail).
    apply walk_Within in Hin. auto.
  - intros (root & Hroot & Hdir & Hwithin). exists root. rewrite Hdir.
    split; [apply walk_Within, Hwithin | exact Hroot].
Qed.

Lemma Dump_spec (lm : LinkManager.t memfs.FS) (searchRoots : list string)
    (maxDepth : Z) (w : memfs.FS) (s : Symlink) :
  s ∈ survey.Dump lm searchRoots maxDepth w
  <-> exists root p t,
        root ∈ searchRoots /\ w !! root = Some memfs.Dir
        /\ survey.Within w (Z.to_nat maxDepth) root p t
        /\ s = LinkManager.Unexpand lm (LinkManager.New lm t p).
Proof.
  unfold survey.Dump. rewrite fold_add_elem, list_elem_of_fmap. split.
  - intros [H | ([p t] & -> & Hin)]; [inversion H |].
    apply discovered_spec in Hin as (root & Hroot & Hdir & Hwithin).
    exists root, p, t. auto.
  - intros (root & p & t & Hroot & Hdir & Hwithin & ->). right.
    exists (p, t). split; [reflexivity |].
    apply discovered_spec. exists root. auto.
Qed.

(** C2.  The set [Dump] returns holds exactly the records of the symbolic
    links that are within [maxDepth] levels of a search root that is a
    directory, each one built by [New] from what the link points to and the
    path of the link, and unexpanded; no record is in it twice.  The survey
    takes the filesystem and returns the set alone, and the set does not
    depend on what the regular files hold, the configuration file among them:
    it is the same when a regular file is written, new or over another. *)
Theorem Dump_surveys_the_symlinks (lm : LinkManager.t memfs.FS)
    (searchRoots : list string) (maxDepth : Z) (w : memfs.FS) :
  let set := survey.Dump lm searchRoots maxDepth w in
  (forall s,
      s ∈ set
      <-> exists root p t,
            root ∈ searchRoots /\ w !! root = Some memfs.Dir
            /\ survey.Within w (Z.to_nat maxDepth) root p t
            /\ s = LinkManager.Unexpand lm (LinkManager.New lm t p))
  /\ NoDup set
  /\ (forall file d,
        w !! file = None \/ (exists d0, w !! file = Some (memfs.File d0)) ->
        forall s,
          s ∈ survey.Dump lm searchRoots maxDepth (<[file := memfs.File d]> w)
          <-> s ∈ set).
Proof.
  intros set. subst set. split; [| split].
  - intros s. apply Dump_spec.
  - apply fold_add_NoDup, NoDup_nil. exact I.
  - intros file d Hfile s. rewrite !Dump_spec.
    split; intros (root & p & t & Hroot & Hdir & Hwithin & ->);
      exists root, p, t; (split; [exact Hroot | split; [| split; [| reflexivity]]]).
    + apply (lookup_beside_file w file root d) in Hdir;
        [exact Hdir | exact Hfile | discriminate].
    + apply (Within_beside_file w file d) in Hwithin; [exact Hwithin | exact Hfile].
    + apply (lookup_beside_file w file root d); [exact Hfile | discriminate | exact Hdir].
    + apply (Within_beside_file w file d); [exact Hfile | exact Hwithin].
Qed.

Lemma Dump_surveys_the_symlinks_witness :
  let set := fixture.Survey ["/home"; "/home"] 2 fixture.linked_home in
  let written :=
    <[fixture.configFile := memfs.File (memfs.Toml (mkConfig [fixture.stored]))]>
      fixture.linked_home in
  mkSymlink "~/.dotfiles/git" "~/.config/git" ∈ set
  /\ NoDup set
  /\ mkSymlink "~/.dotfiles/git" "~/.config/git"
     ∈ fixture.Survey ["/home"; "/home"] 2 written.
Proof.
  intros set written.
  destruct (Dump_surveys_the_symlinks
              (linkManager.NewLinkManager fixture.config)
              ["/home"; "/home"] 2 fixture.linked_home) as (Hset & Hnd & Hfile).
  assert (mkSymlink "~/.dotfiles/git" "~/.config/git" ∈ set) as Hgit.
  { apply Hset. exists "/home", "/home/.config/git", "/home/.dotfiles/git".
    split; [apply elem_of_cons; left; reflexivity |].
    split; [reflexivity |]. split; [| reflexivity].
    change (Z.to_nat 2) with 2%nat.
    apply survey.within_directory with "/home/.config"; [reflexivity | reflexivity |].
    apply survey.within_entry; reflexivity. }
  split; [exact Hgit | split; [exact Hnd |]].
  apply (Hfile fixture.configFile (memfs.Toml (mkConfig [fixture.stored]))).
  - right. exists (memfs.Toml (mkConfig [])). reflexivity.
  - exact Hgit.
Defined.

(** The survey of [fixture.linked_home]: the link three levels down is found
    from the home directory with a depth of three and not of two, a link
    found from two roots is recorded once, and a root that is no directory
    gives nothing. *)
Example Survey_of_the_home_directory :
  let git := mkSymlink "~/.dotfiles/git" "~/.config/git" in
  let vimrc := mkSymlink "~/.dotfiles/.vimrc" "~/.vimrc" in
  let init := mkSymlink "~/.dotfiles/init.vim" "~/.config/nvim/init.vim" in
  fixture.Survey ["/home"] 0 fixture.linked_home = []
  /\ fixture.Survey ["/home"] 1 fixture.linked_home = [vimrc]
  /\ fixture.Survey ["/home"] 2 fixture.linked_home = [git; vimrc]
  /\ fixture.Survey ["/home"] 3 fixture.linked_home = [git; init; vimrc]
  /\ fixture.Survey ["/home"; "/home/.config"; "/home"; "/nowhere"; "/home/.vimrc"] 2
       fixture.linked_home = [git; vimrc; init].
Proof. vm_compute. repeat split; reflexivity. Qed.

(** ** The manager, over any link manager and any filesystem *)

Section ManagerFacts.
Context {W : Type} {P : pkg.t W}.
Variable mgr : Manager.t W.

Local Abbreviation lm := (Manager.LinkManager mgr).
Local Abbreviation file := (Manager.configFile mgr).
Local Abbreviation home := (UserHome (Manager.config mgr)).
Local Abbreviation wd := (WorkingDir (Manager.config mgr)).

Lemma otherError_false (err : option error) :
  Manager.otherError err = false <-> err = None \/ err = Some ErrNoSuchFile.
Proof.
  destruct err as [e |]; [destruct e |]; simpl; split; auto; try discriminate;
    intros [H | H]; congruence.
Qed.

Lemma otherError_true (e : error) :
  e <> ErrNoSuchFile -> Manager.otherError (Some e) = true.
Proof. destruct e; simpl; congruence. Qed.

(** [addToConfiguration] when the read fails with another error than "no
    such file": the error is returned and nothing is saved. *)
Lemma addToConfiguration_read_error (new : Symlink) (r : Run W) (e : error) :
  (pkg.ReadToml (fs r) file).2 = Some e ->
  e <> ErrNoSuchFile ->
  Manager.addToConfiguration mgr new r
  = ((None, Some e), mkRun (fs r) (calls r ++ [CallReadToml file])).
Proof.
  intros Hread Hne.
  unfold Manager.addToConfiguration, Manager.readConfiguration,
    Manager.callReadToml, bind, ret.
  destruct (pkg.ReadToml (fs r) file) as [saved err]. simpl in Hread. subst err.
  rewrite (otherError_true _ Hne). reflexivity.
Qed.

(** [addToConfiguration] when the record is in the set it reads: nothing is
    saved. *)
Lemma addToConfiguration_stored (new : Symlink) (r : Run W) :
  Manager.otherError (pkg.ReadToml (fs r) file).2 = false ->
  LinkManager.Unexpand lm new ∈ Symlinks (pkg.ReadToml (fs r) file).1 ->
  Manager.addToConfiguration mgr new r
  = ((Some (LinkManager.Unexpand lm new), None),
     mkRun (fs r) (calls r ++ [CallReadToml file])).
Proof.
  intros Herr Hin.
  unfold Manager.addToConfiguration, Manager.readConfiguration,
    Manager.callReadToml, bind, ret.
  destruct (pkg.ReadToml (fs r) file) as [saved err]. simpl in Herr, Hin.
  rewrite Herr. apply existsb_sameSymlink in Hin. rewrite Hin. reflexivity.
Qed.

(** [addToConfiguration] when the record is not in the set it reads: the set
    is saved with the record appended. *)
Lemma addToConfiguration_new (new : Symlink) (r : Run W) :
  Manager.otherError (pkg.ReadToml (fs r) file).2 = false ->
  LinkManager.Unexpand lm new ∉ Symlinks (pkg.ReadToml (fs r) file).1 ->
  let saved :=
    mkConfig (Symlinks (pkg.ReadToml (fs r) file).1 ++ [LinkManager.Unexpand lm new]) in
  Manager.addToConfiguration mgr new r
  = ((Some (LinkManager.Unexpand lm new), (pkg.SaveToml (fs r) saved file).1),
     mkRun (pkg.SaveToml (fs r) saved file).2
           (calls r ++ [CallReadToml file; CallSaveToml saved file])).
Proof.
  intros Herr Hnin saved'. subst saved'.
  unfold Manager.addToConfiguration, Manager.readConfiguration,
    Manager.callReadToml, Manager.callSaveToml, bind, ret.
  destruct (pkg.ReadToml (fs r) file) as [saved err]. simpl in Herr, Hnin. simpl.
  rewrite Herr. apply existsb_sameSymlink_false in Hnin. rewrite Hnin. simpl.
  destruct (pkg.SaveToml _ _ _) as [serr w2]. simpl.
  rewrite <- app_assoc. reflexivity.
Qed.

(** [Add] up to the call of [addToConfiguration]. *)
Lemma Add_ensured (target newLocation : string) (r : Run W)
    (absTarget : string) (w1 : W) :
  pkg.AsAbsolute (fs r) wd target = Ok absTarget ->
  let symlink := LinkManager.New lm newLocation absTarget in
  LinkManager.Ensure lm symlink (fs r) = (None, w1) ->
  let r1 := mkRun w1 (calls r ++ [CallNew newLocation absTarget; CallEnsure symlink]) in
  Manager.Add mgr target newLocation r
  = ((Some symlink, (Manager.addToConfiguration mgr symlink r1).1.2),
     (Manager.addToConfiguration mgr symlink r1).2).
Proof.
  intros Habs symlink Hens r1.
  unfold Manager.Add, Manager.callAsAbsolute, Manager.callNew, Manager.callEnsure,
    bind, ret.
  rewrite Habs. simpl. fold symlink. rewrite Hens. simpl.
  rewrite <- app_assoc. simpl. fold r1.
  destruct (Manager.addToConfiguration mgr symlink r1) as [[stored err] r2].
  reflexivity.
Qed.

Lemma Add_ensure_failed (target newLocation : string) (r : Run W)
    (absTarget : string) (e : error) (w1 : W) :
  pkg.AsAbsolute (fs r) wd target = Ok absTarget ->
  let symlink := LinkManager.New lm newLocation absTarget in
  LinkManager.Ensure lm symlink (fs r) = (Some e, w1) ->
  Manager.Add mgr target newLocation r
  = ((None, Some (Wrapf e ("failed to ensure " +:+ Symlink_String symlink +:+ " exists"))),
     mkRun w1 (calls r ++ [CallNew newLocation absTarget; CallEnsure symlink])).
Proof.
  intros Habs symlink Hens.
  unfold Manager.Add, Manager.callAsAbsolute, Manager.callNew, Manager.callEnsure,
    bind, ret.
  rewrite Habs. simpl. fold symlink. rewrite Hens. simpl.
  rewrite <- app_assoc. reflexivity.
Qed.

Lemma Add_unresolved (target newLocation : string) (r : Run W) (e : error) :
  pkg.AsAbsolute (fs r) wd target = Err e ->
  Manager.Add mgr target newLocation r = ((None, Some e), r).
Proof.
  intros Habs. unfold Manager.Add, Manager.callAsAbsolute, bind, ret.
  rewrite Habs. reflexivity.
Qed.

(** [Remove] when the loop over the configuration sets no pointer. *)
Lemma Remove_no_match (link : string) (r : Run W) (absLink : string) :
  pkg.AsAbsolute (fs r) wd link = Ok absLink ->
  Manager.matchingSymlink (UnexpandHome absLink home)
    (Symlinks (pkg.ReadToml (fs r) file).1) = None ->
  Manager.Remove mgr link r
  = (Some (Errorf ("unable to find link " +:+ UnexpandHome absLink home
                   +:+ " in configuration")),
     mkRun (fs r) (calls r ++ [CallReadToml file])).
Proof.
  intros Habs Hnone.
  unfold Manager.Remove, Manager.callAsAbsolute, Manager.readConfiguration,
    Manager.callReadToml, bind, ret.
  rewrite Habs. simpl.
  destruct (pkg.ReadToml (fs r) file) as [cfg err]. simpl in Hnone.
  rewrite Hnone. reflexivity.
Qed.

(** C4.  When the link resolves and no record of the configuration that is
    read has the unexpanded link, [Remove] returns the error "unable to find
    link ... in configuration"; the only call it has made is the read of the
    configuration: the link manager's [Remove] is not called and the
    filesystem is the one [Remove] started from. *)
Theorem Remove_not_in_configuration (link : string) (r : Run W) (absLink : string) :
  pkg.AsAbsolute (fs r) wd link = Ok absLink ->
  (forall s, s ∈ Symlinks (pkg.ReadToml (fs r) file).1 ->
             Link s <> UnexpandHome absLink home) ->
  Manager.Remove mgr link r
  = (Some (Errorf ("unable to find link " +:+ UnexpandHome absLink home
                   +:+ " in configuration")),
     mkRun (fs r) (calls r ++ [CallReadToml file])).
Proof.
  intros Habs Hnone. apply (Remove_no_match _ _ _ Habs).
  apply matchingSymlink_None, Hnone.
Qed.

(** C3.  When the link manager's [Remove] returns an error, [Remove] returns
    that error wrapped ("failed to remove link ..."), and it saves nothing:
    after the read of the configuration and the call of the link manager it
    makes no call, so the filesystem is as the link manager left it.  A record
    with that link is in the configuration that was read; when the failed
    removal left the filesystem as it was, it is in the configuration still. *)
Theorem Remove_failure_keeps_configuration (link : string) (r : Run W)
    (absLink : string) (matching : Symlink) (e : error) (w1 : W) :
  pkg.AsAbsolute (fs r) wd link = Ok absLink ->
  Manager.matchingSymlink (UnexpandHome absLink home)
    (Symlinks (pkg.ReadToml (fs r) file).1) = Some matching ->
  LinkManager.Remove lm absLink (Target (LinkManager.Expand lm matching)) (fs r)
  = (Err e, w1) ->
  Manager.Remove mgr link r
  = (Some (Wrapf e ("failed to remove link " +:+ UnexpandHome absLink home)),
     mkRun w1 (calls r ++ [CallReadToml file;
                           CallRemove absLink (Target (LinkManager.Expand lm matching))]))
  /\ (exists s, s ∈ Symlinks (pkg.ReadToml (fs r) file).1
                /\ Link s = UnexpandHome absLink home)
  /\ (w1 = fs r ->
      exists s, s ∈ Symlinks (pkg.ReadToml (fs (Manager.Remove mgr link r).2) file).1
                /\ Link s = UnexpandHome absLink home).
Proof.
  intros Habs Hmatch Hrm.
  assert (Manager.Remove mgr link r
          = (Some (Wrapf e ("failed to remove link " +:+ UnexpandHome absLink home)),
             mkRun w1 (calls r ++ [CallReadToml file;
                         CallRemove absLink (Target (LinkManager.Expand lm matching))])))
    as Heq.
  { unfold Manager.Remove, Manager.callAsAbsolute, Manager.readConfiguration,
      Manager.callReadToml, Manager.callRemove, bind, ret.
    rewrite Habs. simpl.
    destruct (pkg.ReadToml (fs r) file) as [cfg err]. simpl in Hmatch.
    rewrite Hmatch. simpl. rewrite Hrm. simpl.
    rewrite <- app_assoc. reflexivity. }
  pose proof (matchingSymlink_Some _ _ _ Hmatch) as Hrec.
  split; [exact Heq | split; [exact Hrec |]].
  intros ->. rewrite Heq. exact Hrec.
Qed.

(** C10, amended.  When the path does not resolve, [Add] returns the error of
    the resolution and calls nothing: [New] and [Ensure] are not reached.
    Once the path resolves, [Add] calls [New] and then [Ensure] before
    anything else, whatever the configuration holds.  When [Ensure] succeeds
    and the configuration read afterwards already holds the unexpanded
    record, [Add] succeeds with the filesystem as [Ensure] left it, and the
    read of the configuration is its last call: nothing is saved. *)
Theorem Add_ensures_before_duplicate_check (target newLocation : string) (r : Run W) :
  (forall e,
      pkg.AsAbsolute (fs r) wd target = Err e ->
      Manager.Add mgr target newLocation r = ((None, Some e), r))
  /\ forall absTarget,
      pkg.AsAbsolute (fs r) wd target = Ok absTarget ->
      let symlink := LinkManager.New lm newLocation absTarget in
      (exists rest,
          calls (Manager.Add mgr target newLocation r).2
          = calls r ++ [CallNew newLocation absTarget; CallEnsure symlink] ++ rest
          /\ forall c, c ∈ rest -> c <> CallEnsure symlink)
      /\ forall w1,
          LinkManager.Ensure lm symlink (fs r) = (None, w1) ->
          Manager.otherError (pkg.ReadToml w1 file).2 = false ->
          LinkManager.Unexpand lm symlink ∈ Symlinks (pkg.ReadToml w1 file).1 ->
          Manager.Add mgr target newLocation r
          = ((Some symlink, None),
             mkRun w1 (calls r ++ [CallNew newLocation absTarget; CallEnsure symlink;
                                   CallReadToml file])).
Proof.
  split; [intros e Habs; apply Add_unresolved, Habs |].
  intros absTarget Habs symlink. subst symlink.
  set (symlink := LinkManager.New lm newLocation absTarget). split.
  - destruct (LinkManager.Ensure lm symlink (fs r)) as [[e |] w1] eqn:Hens.
    + exists []. rewrite (Add_ensure_failed _ _ _ _ _ _ Habs Hens). simpl.
      split; [reflexivity | intros c Hc; inversion Hc].
    + rewrite (Add_ensured _ _ _ _ _ Habs Hens). simpl. fold symlink.
      set (r1 := mkRun w1 _).
      destruct (Manager.otherError (pkg.ReadToml (fs r1) file).2) eqn:Hother.
      * destruct (pkg.ReadToml (fs r1) file).2 as [e |] eqn:Hread; [| discriminate].
        assert (e <> ErrNoSuchFile) as Hne by (intros ->; discriminate).
        rewrite (addToConfiguration_read_error _ r1 e Hread Hne). simpl.
        exists [CallReadToml file]. rewrite <- app_assoc. split; [reflexivity |].
        intros c Hc. apply list_elem_of_singleton in Hc. subst c. discriminate.
      * destruct (decide (LinkManager.Unexpand lm symlink
                          ∈ Symlinks (pkg.ReadToml (fs r1) file).1)) as [Hin | Hnin].
        -- rewrite (addToConfiguration_stored _ r1 Hother Hin). simpl.
           exists [CallReadToml file]. rewrite <- app_assoc. split; [reflexivity |].
           intros c Hc. apply list_elem_of_singleton in Hc. subst c. discriminate.
        -- pose proof (addToConfiguration_new _ r1 Hother Hnin) as Hnew.
           cbv zeta in Hnew. rewrite Hnew. simpl.
           eexists. rewrite <- app_assoc. split; [reflexivity |].
           intros c Hc. apply elem_of_cons in Hc as [-> | Hc]; [discriminate |].
           apply list_elem_of_singleton in Hc. subst c. discriminate.
  - intros w1 Hens Hother Hin.
    rewrite (Add_ensured _ _ _ _ _ Habs Hens).
    rewrite (addToConfiguration_stored _ (mkRun w1 _) Hother Hin). simpl.
    rewrite <- app_assoc. reflexivity.
Qed.

(** The method [Dump] of the manager (mgr.go:191-192) is not the survey of
    symbolic links: it takes no search root and no depth, returns the empty
    string and no error, calls no collaborator and leaves the filesystem as
    it is ("should do nothing and always succeed", mgr_test.go). *)
Lemma Dump_does_nothing (r : Run W) :
  Manager.Dump r = (("", None), r).
Proof. reflexivity. Qed.

(** C1, amended.  [Add] undoes nothing when it returns an error.  Either the
    path did not resolve: no collaborator was called and the state is the one
    [Add] started from.  Or [Ensure] failed: its error is returned wrapped,
    the configuration was neither read nor saved, and the filesystem is as
    [Ensure] left it.  Or [Ensure] succeeded and reading the configuration
    failed with another error than "no such file": the filesystem is as
    [Ensure] left it, with no record saved.  Or [Ensure] succeeded and saving
    failed: the filesystem is as the failed save left it. *)
Theorem Add_error_is_not_rolled_back (target newLocation : string) (r r' : Run W)
    (res : option Symlink) (err : error) :
  Manager.Add mgr target newLocation r = ((res, Some err), r') ->
  (pkg.AsAbsolute (fs r) wd target = Err err /\ r' = r)
  \/ exists absTarget,
      pkg.AsAbsolute (fs r) wd target = Ok absTarget
      /\ let symlink := LinkManager.New lm newLocation absTarget in
         let ensured := LinkManager.Ensure lm symlink (fs r) in
         let called := calls r ++ [CallNew newLocation absTarget; CallEnsure symlink] in
         (exists e,
             ensured.1 = Some e
             /\ err = Wrapf e ("failed to ensure " +:+ Symlink_String symlink
                              +:+ " exists")
             /\ r' = mkRun ensured.2 called)
         \/ (ensured.1 = None
             /\ (pkg.ReadToml ensured.2 file).2 = Some err
             /\ err <> ErrNoSuchFile
             /\ r' = mkRun ensured.2 (called ++ [CallReadToml file]))
         \/ (ensured.1 = None
             /\ exists saved,
                 pkg.SaveToml ensured.2 saved file = (Some err, fs r')
                 /\ calls r' = called ++ [CallReadToml file; CallSaveToml saved file]).
Proof.
  intros Hadd.
  destruct (pkg.AsAbsolute (fs r) wd target) as [absTarget | e] eqn:Habs.
  - right. exists absTarget. split; [reflexivity |]. cbv zeta.
    set (symlink := LinkManager.New lm newLocation absTarget).
    destruct (LinkManager.Ensure lm symlink (fs r)) as [[e |] w1] eqn:Hens; simpl.
    + left. exists e. rewrite (Add_ensure_failed _ _ _ _ _ _ Habs Hens) in Hadd.
      injection Hadd as _ <- <-. auto.
    + right. rewrite (Add_ensured _ _ _ _ _ Habs Hens) in Hadd. fold symlink in Hadd.
      set (r1 := mkRun w1 _) in Hadd.
      destruct (Manager.otherError (pkg.ReadToml (fs r1) file).2) eqn:Hother.
      * left. destruct (pkg.ReadToml (fs r1) file).2 as [e |] eqn:Hread; [| discriminate].
        assert (e <> ErrNoSuchFile) as Hne by (intros ->; discriminate).
        rewrite (addToConfiguration_read_error _ r1 e Hread Hne) in Hadd.
        injection Hadd as _ <- <-. auto.
      * destruct (decide (LinkManager.Unexpand lm symlink
                          ∈ Symlinks (pkg.ReadToml (fs r1) file).1)) as [Hin | Hnin].
        -- rewrite (addToConfiguration_stored _ r1 Hother Hin) in Hadd. discriminate.
        -- right. split; [reflexivity |].
           exists (mkConfig (Symlinks (pkg.ReadToml w1 file).1
                             ++ [LinkManager.Unexpand lm symlink])).
           pose proof (addToConfiguration_new _ r1 Hother Hnin) as Hnew.
           cbv zeta in Hnew. rewrite Hnew in Hadd. clear Hnew. simpl in Hadd.
           injection Hadd as _ Herr <-. simpl.
           rewrite <- Herr, <- app_assoc. split; [| reflexivity].
           apply surjective_pairing.
  - left. rewrite (Add_unresolved _ _ _ _ Habs) in Hadd.
    injection Hadd as _ <- <-. auto.
Qed.

(** C6, amended.  In [Add], once [Ensure] has succeeded: when reading the
    configuration fails with "no such file", [Add] goes on as from an empty
    set and saves the set that holds the new record alone; when it fails with
    any other error, [Add] returns that very error, not wrapped, with the
    symlink, and saves nothing.  In [Remove], of any link that resolves and
    whatever [Add] would do: "no such file" gives an empty set to search, and
    the link is reported as not found in the configuration. *)
Theorem read_errors_of_the_configuration (r : Run W) :
  (forall target newLocation absTarget w1,
      pkg.AsAbsolute (fs r) wd target = Ok absTarget ->
      let symlink := LinkManager.New lm newLocation absTarget in
      let called := calls r ++ [CallNew newLocation absTarget; CallEnsure symlink] in
      LinkManager.Ensure lm symlink (fs r) = (None, w1) ->
      ((pkg.ReadToml w1 file).2 = Some ErrNoSuchFile ->
       let saved := mkConfig [LinkManager.Unexpand lm symlink] in
       Manager.Add mgr target newLocation r
       = ((Some symlink, (pkg.SaveToml w1 saved file).1),
          mkRun (pkg.SaveToml w1 saved file).2
                (called ++ [CallReadToml file; CallSaveToml saved file])))
      /\ (forall e,
            (pkg.ReadToml w1 file).2 = Some e -> e <> ErrNoSuchFile ->
            Manager.Add mgr target newLocation r
            = ((Some symlink, Some e), mkRun w1 (called ++ [CallReadToml file]))))
  /\ (forall link absLink,
        pkg.AsAbsolute (fs r) wd link = Ok absLink ->
        (pkg.ReadToml (fs r) file).2 = Some ErrNoSuchFile ->
        Manager.Remove mgr link r
        = (Some (Errorf ("unable to find link " +:+ UnexpandHome absLink home
                         +:+ " in configuration")),
           mkRun (fs r) (calls r ++ [CallReadToml file]))).
Proof.
  split.
  - intros target newLocation absTarget w1 Habs symlink called Hens.
    subst symlink called.
    set (symlink := LinkManager.New lm newLocation absTarget).
    rewrite (Add_ensured _ _ _ _ _ Habs Hens). fold symlink.
    set (r1 := mkRun w1 _). split.
    + intros Hread saved.
      assert (Manager.otherError (pkg.ReadToml (fs r1) file).2 = false) as Hother
        by (simpl; rewrite Hread; reflexivity).
      pose proof (pkg.ReadToml_no_file w1 file Hread) as Hempty.
      assert (LinkManager.Unexpand lm symlink ∉ Symlinks (pkg.ReadToml (fs r1) file).1)
        as Hnin by (simpl; rewrite Hempty; apply not_elem_of_nil).
      pose proof (addToConfiguration_new _ r1 Hother Hnin) as Hnew.
      cbv zeta in Hnew. rewrite Hnew. simpl. rewrite Hempty. reflexivity.
    + intros e Hread Hne.
      rewrite (addToConfiguration_read_error _ r1 e Hread Hne). reflexivity.
  - intros link absLink Hlink Hread.
    apply (Remove_no_match link r absLink Hlink).
    rewrite (pkg.ReadToml_no_file _ _ Hread). reflexivity.
Qed.

(** C5, amended.  [Add] returns the symlink built by [New], in the form given
    to [Ensure], and not the unexpanded record it stores.  After an [Add]
    that succeeded, a second [Add] of the same inputs (the path resolves as
    before, [Ensure] succeeds and leaves the configuration as it was, and
    what was saved is what is read back) returns the same symlink and saves
    nothing: the read of the configuration is its last call.  The unexpanded
    record is then in the configuration; when the set the first call read had
    no two equal records, neither has the final one, which holds the record
    exactly once. *)
Theorem Add_twice (target newLocation : string) (r r1 : Run W)
    (absTarget : string) (s : Symlink) (w2 : W) :
  pkg.AsAbsolute (fs r) wd target = Ok absTarget ->
  Manager.Add mgr target newLocation r = ((Some s, None), r1) ->
  pkg.AsAbsolute (fs r1) wd target = Ok absTarget ->
  LinkManager.Ensure lm s (fs r1) = (None, w2) ->
  pkg.ReadToml w2 file = pkg.ReadToml (fs r1) file ->
  (forall w c w', pkg.SaveToml w c file = (None, w') -> pkg.ReadToml w' file = (c, None)) ->
  s = LinkManager.New lm newLocation absTarget
  /\ Manager.Add mgr target newLocation r1
     = ((Some s, None),
        mkRun w2 (calls r1 ++ [CallNew newLocation absTarget; CallEnsure s;
                               CallReadToml file]))
  /\ LinkManager.Unexpand lm s ∈ Symlinks (pkg.ReadToml w2 file).1
  /\ (NoDup (Symlinks (pkg.ReadToml (LinkManager.Ensure lm s (fs r)).2 file).1) ->
      NoDup (Symlinks (pkg.ReadToml w2 file).1)
      /\ occurrences (LinkManager.Unexpand lm s) (Symlinks (pkg.ReadToml w2 file).1) = 1).
Proof.
  intros Habs Hadd Habs1 Hens1 Hframe Hround.
  set (symlink := LinkManager.New lm newLocation absTarget).
  destruct (LinkManager.Ensure lm symlink (fs r)) as [[e |] w1] eqn:Hens.
  { rewrite (Add_ensure_failed _ _ _ _ _ _ Habs Hens) in Hadd. discriminate. }
  rewrite (Add_ensured _ _ _ _ _ Habs Hens) in Hadd. fold symlink in Hadd.
  set (r0 := mkRun w1 _) in Hadd.
  assert (s = symlink) as -> by (injection Hadd as <- _ _; reflexivity).
  rewrite Hens. simpl.
  (* what the first call leaves in the configuration *)
  assert (Manager.otherError (pkg.ReadToml (fs r1) file).2 = false
          /\ LinkManager.Unexpand lm symlink ∈ Symlinks (pkg.ReadToml (fs r1) file).1
          /\ (NoDup (Symlinks (pkg.ReadToml w1 file).1) ->
              NoDup (Symlinks (pkg.ReadToml (fs r1) file).1)))
    as (Hother1 & Hin1 & Hnd1).
  { destruct (Manager.otherError (pkg.ReadToml (fs r0) file).2) eqn:Hother.
    - destruct (pkg.ReadToml (fs r0) file).2 as [e |] eqn:Hread; [| discriminate].
      assert (e <> ErrNoSuchFile) as Hne by (intros ->; discriminate).
      rewrite (addToConfiguration_read_error _ r0 e Hread Hne) in Hadd. discriminate.
    - destruct (decide (LinkManager.Unexpand lm symlink
                        ∈ Symlinks (pkg.ReadToml (fs r0) file).1)) as [Hin | Hnin].
      + rewrite (addToConfiguration_stored _ r0 Hother Hin) in Hadd.
        injection Hadd as <-. simpl. auto.
      + pose proof (addToConfiguration_new _ r0 Hother Hnin) as Hnew.
        cbv zeta in Hnew. rewrite Hnew in Hadd. clear Hnew. simpl in Hadd.
        injection Hadd as Hsave <-. simpl.
        destruct (pkg.SaveToml w1 _ file) as [serr w'] eqn:Hsaved.
        simpl in Hsave. subst serr. simpl.
        rewrite (Hround _ _ _ Hsaved). simpl.
        split; [reflexivity | split].
        * apply elem_of_app. right. apply list_elem_of_singleton. reflexivity.
        * intros Hnd. apply NoDup_snoc; assumption. }
  rewrite <- Hframe in Hother1, Hin1, Hnd1.
  split; [reflexivity | split; [| split; [exact Hin1 |]]].
  - rewrite (Add_ensured _ _ _ _ _ Habs1 Hens1). fold symlink.
    rewrite (addToConfiguration_stored _ (mkRun w2 _) Hother1 Hin1). simpl.
    rewrite <- app_assoc. reflexivity.
  - intros Hnd. split; [apply Hnd1, Hnd |].
    apply occurrences_NoDup; [apply Hnd1, Hnd | exact Hin1].
Qed.

End ManagerFacts.

(** ** The manager on the in-memory filesystem *)

(** What [SaveToml] wrote is what [ReadToml] reads. *)
Lemma SaveToml_ReadToml (w w' : memfs.FS) (c : Config) (file : string) :
  memfs.SaveToml w c file = (None, w') -> memfs.ReadToml w' file = (c, None).
Proof.
  unfold memfs.SaveToml, memfs.ReadToml. intros H.
  assert (exists w0, w' = <[file := memfs.File (memfs.Toml c)]> w0) as [w0 ->].
  { destruct (w !! file) as [[| d | t] |];
      try discriminate;
      destruct (memfs.CreateNecessaryDirectories w file) as [[e |] w0];
      try discriminate; injection H as <-; eauto. }
  rewrite lookup_insert_eq. reflexivity.
Qed.

(** On a filesystem with a symbolic link in the home directory, the method
    [Dump] of the manager returns the empty string. *)
Lemma Dump_ignores_symlinks :
  fixture.stale !! "/home/.vimrc" = Some (memfs.SymlinkTo "/home/old/vimrc")
  /\ fixture.run fixture.Dump fixture.stale = (("", None), mkRun fixture.stale []).
Proof. split; reflexivity. Qed.

(** C1, as the claim states it, fails: [Ensure] re-creates the link, saving
    the record fails, and [Add] returns the error with the link in place and
    no record stored. *)
Lemma Add_error_leaves_link_without_record :
  let out := fixture.run (fixture.Add "/home/.vimrc" "") fixture.stale_unwritable in
  out.1 = (Some fixture.expanded, Some (Errorf "mkdir /home/.config: not a directory"))
  /\ fixture.stale_unwritable !! "/home/.vimrc" = Some (memfs.SymlinkTo "/home/old/vimrc")
  /\ fs out.2 !! "/home/.vimrc" = Some (memfs.SymlinkTo "/home/.dotfiles/.vimrc")
  /\ memfs.ReadToml (fs out.2) fixture.configFile = (mkConfig [], Some ErrNoSuchFile)
  /\ calls out.2
     = [CallNew "" "/home/.vimrc"; CallEnsure fixture.expanded;
        CallReadToml fixture.configFile;
        CallSaveToml (mkConfig [fixture.stored]) fixture.configFile].
Proof. vm_compute. repeat split; reflexivity. Qed.

Lemma Add_error_is_not_rolled_back_witness :
  let r := mkRun fixture.stale_undecodable [] in
  let r' := (fixture.Add "/home/.vimrc" "" r).2 in
  let err := Errorf "unable to decode /home/.config/punkt/symlinks.toml" in
  fixture.Add "/home/.vimrc" "" r = ((Some fixture.expanded, Some err), r')
  /\ ((memfs.AsAbsolute (fs r) "/home" "/home/.vimrc" = Err err /\ r' = r)
      \/ exists absTarget,
          memfs.AsAbsolute (fs r) "/home" "/home/.vimrc" = Ok absTarget
          /\ let symlink := linkManager.New fixture.config "" absTarget in
             let ensured := linkManager.Ensure symlink (fs r) in
             let called := calls r ++ [CallNew "" absTarget; CallEnsure symlink] in
             (exists e,
                 ensured.1 = Some e
                 /\ err = Wrapf e ("failed to ensure " +:+ Symlink_String symlink
                                  +:+ " exists")
                 /\ r' = mkRun ensured.2 called)
             \/ (ensured.1 = None
                 /\ (memfs.ReadToml ensured.2 fixture.configFile).2 = Some err
                 /\ err <> ErrNoSuchFile
                 /\ r' = mkRun ensured.2 (called ++ [CallReadToml fixture.configFile]))
             \/ (ensured.1 = None
                 /\ exists saved,
                     memfs.SaveToml ensured.2 saved fixture.configFile = (Some err, fs r')
                     /\ calls r'
                        = called ++ [CallReadToml fixture.configFile;
                                     CallSaveToml saved fixture.configFile])).
Proof.
  intros r r' err.
  assert (fixture.Add "/home/.vimrc" "" r = ((Some fixture.expanded, Some err), r'))
    as Hadd by (vm_compute; reflexivity).
  split; [exact Hadd |].
  exact (Add_error_is_not_rolled_back
           fixture.mgr "/home/.vimrc" "" r r' (Some fixture.expanded) err Hadd).
Defined.

Lemma Remove_not_in_configuration_witness :
  let r := mkRun fixture.stored_stale [] in
  memfs.AsAbsolute (fs r) "/home" "old/vimrc" = Ok "/home/old/vimrc"
  /\ Symlinks (memfs.ReadToml (fs r) fixture.configFile).1 = [fixture.stored]
  /\ fixture.Remove "old/vimrc" r
     = (Some (Errorf "unable to find link ~/old/vimrc in configuration"),
        mkRun fixture.stored_stale [CallReadToml fixture.configFile]).
Proof.
  intros r. split; [reflexivity | split; [reflexivity |]].
  apply (Remove_not_in_configuration
           fixture.mgr "old/vimrc" r "/home/old/vimrc"); [reflexivity |].
  intros s Hs. change (s ∈ [fixture.stored]) in Hs.
  apply list_elem_of_singleton in Hs. subst s. discriminate.
Defined.

Lemma Remove_failure_keeps_configuration_witness :
  let r := mkRun fixture.stored_plain [] in
  let out := fixture.Remove "/home/.vimrc" r in
  out = (Some (Wrapf (Errorf "/home/.vimrc is not a symlink")
                 "failed to remove link ~/.vimrc"),
         mkRun fixture.stored_plain
           [CallReadToml fixture.configFile;
            CallRemove "/home/.vimrc" "/home/.dotfiles/.vimrc"])
  /\ exists s, s ∈ Symlinks (memfs.ReadToml (fs out.2) fixture.configFile).1
               /\ Link s = "~/.vimrc".
Proof.
  intros r out.
  destruct (Remove_failure_keeps_configuration
              fixture.mgr
              "/home/.vimrc" r "/home/.vimrc" fixture.stored
              (Errorf "/home/.vimrc is not a symlink") fixture.stored_plain)
    as (Hout & _ & Hkept); [reflexivity | reflexivity | reflexivity |].
  split; [exact Hout | exact (Hkept eq_refl)].
Defined.

(** C10, as the claim states it, fails: the record is stored and the link is
    missing, and [Add] does not put the link back.  The path it is given is
    the link ([New] gets the resolved path as its link), so the path does not
    resolve: [Add] returns the error of the resolution and has called neither
    [New] nor [Ensure]. *)
Lemma Add_does_not_recreate_a_missing_link :
  let r := mkRun fixture.stored_missing [] in
  let out := fixture.Add "/home/.vimrc" "" r in
  fs r !! "/home/.vimrc" = None
  /\ Symlinks (memfs.ReadToml (fs r) fixture.configFile).1 = [fixture.stored]
  /\ linkManager.Unexpand fixture.config (linkManager.New fixture.config "" "/home/.vimrc")
     = fixture.stored
  /\ out = ((None, Some (Errorf "file does not exist: /home/.vimrc")), r)
  /\ calls out.2 = []
  /\ fs out.2 !! "/home/.vimrc" = None.
Proof. vm_compute. repeat split; reflexivity. Qed.

(** On the in-memory filesystem, [Ensure] is reached only for a link that
    exists: the link of the symlink [Add] builds is the path it resolved. *)
Lemma Add_ensures_an_existing_link (c : conf_Config) (w : memfs.FS)
    (target newLocation absTarget : string) :
  memfs.AsAbsolute w (WorkingDir c) target = Ok absTarget ->
  Link (linkManager.New c newLocation absTarget) = absTarget
  /\ w !! absTarget <> None.
Proof.
  unfold memfs.AsAbsolute.
  set (abs := if memfs.IsAbs target then target else WorkingDir c +:+ "/" +:+ target).
  assert (String.eqb abs "" = false) as Habs.
  { subst abs. destruct (memfs.IsAbs target) eqn:Ht.
    - destruct target; [discriminate | reflexivity].
    - destruct (WorkingDir c); reflexivity. }
  destruct (w !! abs) as [nd |] eqn:Hnode; [| discriminate].
  intros [= <-]. split; [| congruence].
  unfold linkManager.New. rewrite Habs.
  destruct (String.eqb newLocation ""); reflexivity.
Qed.

Lemma Add_ensures_before_duplicate_check_witness :
  let r := mkRun fixture.stored_stale [] in
  let out := fixture.Add "/home/.vimrc" "" r in
  fs r !! "/home/.vimrc" = Some (memfs.SymlinkTo "/home/old/vimrc")
  /\ fixture.stored ∈ Symlinks (memfs.ReadToml (fs r) fixture.configFile).1
  /\ out = ((Some fixture.expanded, None),
            mkRun (linkManager.Ensure fixture.expanded fixture.stored_stale).2
              [CallNew "" "/home/.vimrc"; CallEnsure fixture.expanded;
               CallReadToml fixture.configFile])
  /\ fs out.2 !! "/home/.vimrc" = Some (memfs.SymlinkTo "/home/.dotfiles/.vimrc")
  /\ fixture.Add "/home/.vimrc" "" (mkRun fixture.stored_missing [])
     = ((None, Some (Errorf "file does not exist: /home/.vimrc")),
        mkRun fixture.stored_missing []).
Proof.
  intros r out.
  destruct (Add_ensures_before_duplicate_check fixture.mgr "/home/.vimrc" "" r)
    as [_ Hresolved].
  destruct (Hresolved "/home/.vimrc") as [_ Hstored]; [reflexivity |].
  assert (out = ((Some fixture.expanded, None),
                 mkRun (linkManager.Ensure fixture.expanded fixture.stored_stale).2
                   [CallNew "" "/home/.vimrc"; CallEnsure fixture.expanded;
                    CallReadToml fixture.configFile])) as Hout.
  { apply Hstored.
    - vm_compute. reflexivity.
    - reflexivity.
    - vm_compute. apply list_elem_of_singleton. reflexivity. }
  destruct (Add_ensures_before_duplicate_check
              fixture.mgr "/home/.vimrc" "" (mkRun fixture.stored_missing []))
    as [Hunresolved _].
  split; [reflexivity | split; [| split; [exact Hout | split]]].
  - vm_compute. apply list_elem_of_singleton. reflexivity.
  - rewrite Hout. reflexivity.
  - apply Hunresolved. reflexivity.
Defined.

(** C6, as the claim states it, fails: the error of the read is returned by
    [Add] as it is, with no context wrapped around it; [Remove] goes on after
    it and reports the link as not found. *)
Lemma read_error_is_not_wrapped :
  let r := mkRun fixture.stale_undecodable [] in
  (memfs.ReadToml (fs r) fixture.configFile).2
  = Some (Errorf "unable to decode /home/.config/punkt/symlinks.toml")
  /\ (fixture.Add "/home/.vimrc" "" r).1
     = (Some fixture.expanded,
        Some (Errorf "unable to decode /home/.config/punkt/symlinks.toml"))
  /\ (fixture.Remove "/home/.vimrc" r).1
     = Some (Errorf "unable to find link ~/.vimrc in configuration").
Proof. vm_compute. repeat split; reflexivity. Qed.

Lemma read_errors_of_the_configuration_witness :
  let r := mkRun fixture.stale [] in
  let u := mkRun fixture.stale_undecodable [] in
  let p := mkRun fixture.plain [] in
  let called := [CallNew "" "/home/.vimrc"; CallEnsure fixture.expanded] in
  fixture.Add "/home/.vimrc" "" r
  = ((Some fixture.expanded, None),
     mkRun (memfs.SaveToml (linkManager.Ensure fixture.expanded fixture.stale).2
              (mkConfig [fixture.stored]) fixture.configFile).2
       (called ++ [CallReadToml fixture.configFile;
                   CallSaveToml (mkConfig [fixture.stored]) fixture.configFile]))
  /\ fixture.Remove "/home/.vimrc" r
     = (Some (Errorf "unable to find link ~/.vimrc in configuration"),
        mkRun fixture.stale [CallReadToml fixture.configFile])
  /\ fixture.Add "/home/.vimrc" "" u
     = ((Some fixture.expanded,
         Some (Errorf "unable to decode /home/.config/punkt/symlinks.toml")),
        mkRun (linkManager.Ensure fixture.expanded fixture.stale_undecodable).2
          (called ++ [CallReadToml fixture.configFile]))
  /\ (linkManager.Ensure fixture.expanded fixture.plain).1
     = Some (Errorf "/home/.vimrc already exists, refuse to overwrite")
  /\ fixture.Remove "/home/.vimrc" p
     = (Some (Errorf "unable to find link ~/.vimrc in configuration"),
        mkRun fixture.plain [CallReadToml fixture.configFile]).
Proof.
  intros r u p called.
  destruct (read_errors_of_the_configuration fixture.mgr r) as [Hadd Hremove].
  destruct (Hadd "/home/.vimrc" "" "/home/.vimrc"
              (linkManager.Ensure fixture.expanded fixture.stale).2)
    as [Hno_file _]; [reflexivity | vm_compute; reflexivity |].
  destruct (read_errors_of_the_configuration fixture.mgr u) as [Hadd_u _].
  destruct (Hadd_u "/home/.vimrc" "" "/home/.vimrc"
              (linkManager.Ensure fixture.expanded fixture.stale_undecodable).2)
    as [_ Hother]; [reflexivity | vm_compute; reflexivity |].
  destruct (read_errors_of_the_configuration fixture.mgr p) as [_ Hremove_p].
  split; [| split; [| split; [| split]]].
  - apply Hno_file. vm_compute. reflexivity.
  - apply (Hremove "/home/.vimrc" "/home/.vimrc"); reflexivity.
  - apply Hother; [vm_compute; reflexivity | discriminate].
  - vm_compute. reflexivity.
  - apply (Hremove_p "/home/.vimrc" "/home/.vimrc"); reflexivity.
Defined.

(** C5, as the claim states it, fails: both calls of [Add] return the symlink
    in its expanded form, which is not the record that is stored. *)
Lemma Add_returns_the_expanded_symlink :
  let out1 := fixture.run (fixture.Add "/home/.vimrc" "") fixture.stale in
  let out2 := fixture.Add "/home/.vimrc" "" out1.2 in
  out1.1 = (Some fixture.expanded, None)
  /\ out2.1 = (Some fixture.expanded, None)
  /\ Symlinks (memfs.ReadToml (fs out2.2) fixture.configFile).1 = [fixture.stored]
  /\ fixture.expanded <> fixture.stored.
Proof.
  vm_compute. split; [reflexivity | split; [reflexivity | split; [reflexivity |]]].
  discriminate.
Qed.

Lemma Add_twice_witness :
  let r := mkRun fixture.stale [] in
  let r1 := (fixture.Add "/home/.vimrc" "" r).2 in
  fixture.Add "/home/.vimrc" "" r = ((Some fixture.expanded, None), r1)
  /\ fixture.Add "/home/.vimrc" "" r1
     = ((Some fixture.expanded, None),
        mkRun (fs r1)
          (calls r1 ++ [CallNew "" "/home/.vimrc"; CallEnsure fixture.expanded;
                        CallReadToml fixture.configFile]))
  /\ NoDup (Symlinks (memfs.ReadToml (fs r1) fixture.configFile).1)
  /\ occurrences fixture.stored
       (Symlinks (memfs.ReadToml (fs r1) fixture.configFile).1) = 1.
Proof.
  intros r r1.
  assert (fixture.Add "/home/.vimrc" "" r = ((Some fixture.expanded, None), r1))
    as Hadd by (vm_compute; reflexivity).
  destruct (Add_twice fixture.mgr
              "/home/.vimrc" "" r r1 "/home/.vimrc" fixture.expanded (fs r1))
    as (_ & Hsecond & _ & Hone).
  - reflexivity.
  - exact Hadd.
  - vm_compute. reflexivity.
  - vm_compute. reflexivity.
  - reflexivity.
  - intros w c w'. apply SaveToml_ReadToml.
  - split; [exact Hadd | split; [exact Hsecond |]].
    apply Hone. vm_compute. apply NoDup_nil. exact I.
Defined.

(** * More of the manager *)

(** ** Removing a record from the configuration *)

Lemma lastIndex_absent (u : Symlink) (l : list Symlink) (i index : Z) :
  u ∉ l -> Manager.lastIndex u l i index = index.
Proof.
  revert i index. induction l as [| x l IH]; intros i index Hnin; [reflexivity |].
  apply not_elem_of_cons in Hnin as [Hne Hnin]. simpl.
  destruct (sameSymlink u x) eqn:E; [apply sameSymlink_eq in E; congruence |].
  apply IH, Hnin.
Qed.

Lemma lastIndex_last (u : Symlink) (l1 l2 : list Symlink) (i index : Z) :
  u ∉ l2 ->
  Manager.lastIndex u (l1 ++ u :: l2) i index = (i + Z.of_nat (length l1))%Z.
Proof.
  intros Hnin. revert i index. induction l1 as [| x l1 IH]; intros i index; simpl.
  - assert (sameSymlink u u = true) as -> by (apply sameSymlink_eq; reflexivity).
    rewrite (lastIndex_absent _ _ _ _ Hnin). lia.
  - rewrite IH. lia.
Qed.

(** The slice expression of [removeFromConfiguration] at the index of the
    last occurrence. *)
Lemma remove_last_occurrence (u : Symlink) (l1 l2 : list Symlink) :
  u ∉ l2 ->
  let index := Manager.lastIndex u (l1 ++ u :: l2) 0 (-1) in
  (index <? 0)%Z = false
  /\ take (Z.to_nat index) (l1 ++ u :: l2) ++ drop (Z.to_nat index + 1) (l1 ++ u :: l2)
     = l1 ++ l2.
Proof.
  intros Hnin index. subst index. rewrite (lastIndex_last _ _ _ _ _ Hnin).
  split; [apply Z.ltb_ge; lia |].
  rewrite Z.add_0_l, Nat2Z.id, take_app_length.
  rewrite cons_middle, app_assoc.
  rewrite (drop_app_length' (l1 ++ [u]) l2); [reflexivity |].
  rewrite length_app. reflexivity.
Qed.

Section ManagerMore.
Context {W : Type} {P : pkg.t W}.
Variable mgr : Manager.t W.

Local Abbreviation lm := (Manager.LinkManager mgr).
Local Abbreviation file := (Manager.configFile mgr).
Local Abbreviation home := (UserHome (Manager.config mgr)).
Local Abbreviation wd := (WorkingDir (Manager.config mgr)).

Lemma removeFromConfiguration_found (s : Symlink) (r : Run W) (l1 l2 : list Symlink) :
  (pkg.ReadToml (fs r) file).2 <> Some ErrNoSuchFile ->
  Symlinks (pkg.ReadToml (fs r) file).1 = l1 ++ LinkManager.Unexpand lm s :: l2 ->
  LinkManager.Unexpand lm s ∉ l2 ->
  Manager.removeFromConfiguration mgr s r
  = ((Some (LinkManager.Unexpand lm s),
      (pkg.SaveToml (fs r) (mkConfig (l1 ++ l2)) file).1),
     mkRun (pkg.SaveToml (fs r) (mkConfig (l1 ++ l2)) file).2
       (calls r ++ [CallReadToml file; CallSaveToml (mkConfig (l1 ++ l2)) file])).
Proof.
  intros Herr Hcfg Hnin.
  unfold Manager.removeFromConfiguration, Manager.callReadToml, Manager.callSaveToml,
    bind, ret.
  destruct (pkg.ReadToml (fs r) file) as [cfg err]. simpl in Herr, Hcfg. simpl.
  rewrite bool_decide_eq_false_2 by exact Herr.
  rewrite Hcfg.
  destruct (remove_last_occurrence _ l1 l2 Hnin) as [-> ->]. simpl.
  destruct (pkg.SaveToml (fs r) (mkConfig (l1 ++ l2)) file) as [serr w2]. simpl.
  rewrite <- app_assoc. reflexivity.
Qed.

Lemma removeFromConfiguration_kept (s : Symlink) (r : Run W) :
  (pkg.ReadToml (fs r) file).2 = Some ErrNoSuchFile
  \/ LinkManager.Unexpand lm s ∉ Symlinks (pkg.ReadToml (fs r) file).1 ->
  (Manager.removeFromConfiguration mgr s r).1.2 = None
  /\ (Manager.removeFromConfiguration mgr s r).2
     = mkRun (fs r) (calls r ++ [CallReadToml file]).
Proof.
  intros H.
  unfold Manager.removeFromConfiguration, Manager.callReadToml, Manager.callSaveToml,
    bind, ret.
  destruct (pkg.ReadToml (fs r) file) as [cfg err]. simpl in H. simpl.
  destruct (bool_decide (err = Some ErrNoSuchFile)) eqn:Hno; [split; reflexivity |].
  apply bool_decide_eq_false in Hno. destruct H as [H | H]; [congruence |].
  rewrite (lastIndex_absent _ _ _ _ H). simpl. split; reflexivity.
Qed.

(** [Remove] from the call of the link manager on. *)
Lemma Remove_matched (link : string) (r : Run W) (absLink : string) (m : Symlink) :
  pkg.AsAbsolute (fs r) wd link = Ok absLink ->
  Manager.matchingSymlink (UnexpandHome absLink home)
    (Symlinks (pkg.ReadToml (fs r) file).1) = Some m ->
  let target := Target (LinkManager.Expand lm m) in
  let called := calls r ++ [CallReadToml file; CallRemove absLink target] in
  Manager.Remove mgr link r
  = match (LinkManager.Remove lm absLink target (fs r)).1 with
    | Err e =>
        (Some (Wrapf e ("failed to remove link " +:+ UnexpandHome absLink home)),
         mkRun (LinkManager.Remove lm absLink target (fs r)).2 called)
    | Ok s =>
        let out :=
          Manager.removeFromConfiguration mgr s
            (mkRun (LinkManager.Remove lm absLink target (fs r)).2 called) in
        (out.1.2, out.2)
    end.
Proof.
  intros Habs Hmatch target called. subst target called.
  unfold Manager.Remove, Manager.callAsAbsolute, Manager.readConfiguration,
    Manager.callReadToml, Manager.callRemove, bind, ret.
  rewrite Habs. simpl.
  destruct (pkg.ReadToml (fs r) file) as [cfg err]. simpl in Hmatch.
  rewrite Hmatch. simpl.
  destruct (LinkManager.Remove lm absLink _ (fs r)) as [[s | e] w1]; simpl;
    rewrite <- app_assoc; simpl; [| reflexivity].
  destruct (Manager.removeFromConfiguration mgr s _) as [[removed err'] r2].
  reflexivity.
Qed.

Lemma removeFromConfiguration_calls (s : Symlink) (r : Run W) :
  exists rest, calls (Manager.removeFromConfiguration mgr s r).2 = calls r ++ rest.
Proof.
  unfold Manager.removeFromConfiguration, Manager.callReadToml, Manager.callSaveToml,
    bind, ret.
  destruct (pkg.ReadToml (fs r) file) as [cfg err]. simpl.
  destruct (bool_decide (err = Some ErrNoSuchFile)); [eexists; reflexivity |].
  destruct (Manager.lastIndex _ _ 0 (-1) <? 0)%Z; [eexists; reflexivity |].
  destruct (pkg.SaveToml _ _ _) as [serr w2]. simpl.
  rewrite <- app_assoc. eexists. reflexivity.
Qed.

Lemma matchingSymlink_last (link : string) (l : list Symlink) (lastrec : Symlink) :
  (exists s, s ∈ l ++ [lastrec] /\ Link s = link) ->
  Manager.matchingSymlink link (l ++ [lastrec]) = Some lastrec.
Proof.
  intros (s & Hin & Hs). unfold Manager.matchingSymlink.
  rewrite matchStep_fold, List.last_last. simpl.
  assert (existsb (fun s => String.eqb (Link s) link) (l ++ [lastrec]) = true) as ->;
    [| reflexivity].
  apply existsb_exists. exists s.
  split; [apply list_elem_of_In, Hin | apply String.eqb_eq, Hs].
Qed.

(** X1.  When the configuration is read (with no error, or with any error
    but "no such file") and holds the unexpanded record, the set that
    [removeFromConfiguration] saves is the set read without the last
    occurrence of the record: the records before it and after it are kept, in
    their order.  The error it returns is the one of the save. *)
Theorem removeFromConfiguration_removes_last_occurrence (s : Symlink) (r : Run W)
    (l1 l2 : list Symlink) :
  (pkg.ReadToml (fs r) file).2 <> Some ErrNoSuchFile ->
  Symlinks (pkg.ReadToml (fs r) file).1 = l1 ++ LinkManager.Unexpand lm s :: l2 ->
  LinkManager.Unexpand lm s ∉ l2 ->
  Manager.removeFromConfiguration mgr s r
  = ((Some (LinkManager.Unexpand lm s),
      (pkg.SaveToml (fs r) (mkConfig (l1 ++ l2)) file).1),
     mkRun (pkg.SaveToml (fs r) (mkConfig (l1 ++ l2)) file).2
       (calls r ++ [CallReadToml file; CallSaveToml (mkConfig (l1 ++ l2)) file])).
Proof. apply removeFromConfiguration_found. Qed.

(** X2.  [removeFromConfiguration] undoes [addToConfiguration]: when a record
    that was not stored is added (the save succeeds and what was saved is
    read back), removing it saves exactly the set that was read before the
    addition. *)
Theorem add_then_remove_restores (new : Symlink) (r : Run W) (w1 : W) :
  Manager.otherError (pkg.ReadToml (fs r) file).2 = false ->
  LinkManager.Unexpand lm new ∉ Symlinks (pkg.ReadToml (fs r) file).1 ->
  let cfg := Symlinks (pkg.ReadToml (fs r) file).1 in
  let u := LinkManager.Unexpand lm new in
  pkg.SaveToml (fs r) (mkConfig (cfg ++ [u])) file = (None, w1) ->
  pkg.ReadToml w1 file = (mkConfig (cfg ++ [u]), None) ->
  let r1 := (Manager.addToConfiguration mgr new r).2 in
  (Manager.addToConfiguration mgr new r).1 = (Some u, None)
  /\ Manager.removeFromConfiguration mgr new r1
     = ((Some u, (pkg.SaveToml w1 (mkConfig cfg) file).1),
        mkRun (pkg.SaveToml w1 (mkConfig cfg) file).2
          (calls r1 ++ [CallReadToml file; CallSaveToml (mkConfig cfg) file])).
Proof.
  intros Hother Hnin cfg u Hsave Hback r1.
  pose proof (addToConfiguration_new mgr new r Hother Hnin) as Hadd.
  cbv zeta in Hadd. fold cfg u in Hadd. rewrite Hsave in Hadd. simpl in Hadd.
  subst r1. rewrite Hadd. simpl. split; [reflexivity |].
  set (r1 := mkRun w1 _).
  pose proof (removeFromConfiguration_found new r1 cfg []) as Hfound.
  rewrite app_nil_r in Hfound. apply Hfound; unfold r1; simpl; rewrite ?Hback; simpl.
  - discriminate.
  - reflexivity.
  - apply not_elem_of_nil.
Qed.

(** X3.  When the link manager has removed the link and the configuration
    read afterwards is missing ("no such file") or does not hold the
    unexpanded form of the symlink the link manager returned, [Remove]
    succeeds: it returns no error and saves nothing, so a record stored with
    another target than the one the link had stays in the configuration. *)
Theorem Remove_succeeds_leaving_the_record (link : string) (r : Run W)
    (absLink : string) (m s : Symlink) (w1 : W) :
  pkg.AsAbsolute (fs r) wd link = Ok absLink ->
  Manager.matchingSymlink (UnexpandHome absLink home)
    (Symlinks (pkg.ReadToml (fs r) file).1) = Some m ->
  LinkManager.Remove lm absLink (Target (LinkManager.Expand lm m)) (fs r) = (Ok s, w1) ->
  (pkg.ReadToml w1 file).2 = Some ErrNoSuchFile
  \/ LinkManager.Unexpand lm s ∉ Symlinks (pkg.ReadToml w1 file).1 ->
  Manager.Remove mgr link r
  = (None,
     mkRun w1 (calls r ++ [CallReadToml file;
                           CallRemove absLink (Target (LinkManager.Expand lm m));
                           CallReadToml file])).
Proof.
  intros Habs Hmatch Hrm Hkept.
  pose proof (Remove_matched link r absLink m Habs Hmatch) as Heq.
  cbv zeta in Heq. rewrite Hrm in Heq. simpl in Heq. rewrite Heq.
  destruct (removeFromConfiguration_kept s (mkRun w1
              (calls r ++ [CallReadToml file;
                           CallRemove absLink (Target (LinkManager.Expand lm m))]))
              Hkept) as [-> ->].
  simpl. rewrite <- app_assoc. reflexivity.
Qed.

(** X4.  When the link manager has removed the link and the configuration
    read afterwards holds the unexpanded form of the symlink it returned,
    [Remove] saves the configuration without the last occurrence of that
    record and returns the error of the save. *)
Theorem Remove_deletes_the_record (link : string) (r : Run W)
    (absLink : string) (m s : Symlink) (w1 : W) (l1 l2 : list Symlink) :
  pkg.AsAbsolute (fs r) wd link = Ok absLink ->
  Manager.matchingSymlink (UnexpandHome absLink home)
    (Symlinks (pkg.ReadToml (fs r) file).1) = Some m ->
  LinkManager.Remove lm absLink (Target (LinkManager.Expand lm m)) (fs r) = (Ok s, w1) ->
  (pkg.ReadToml w1 file).2 <> Some ErrNoSuchFile ->
  Symlinks (pkg.ReadToml w1 file).1 = l1 ++ LinkManager.Unexpand lm s :: l2 ->
  LinkManager.Unexpand lm s ∉ l2 ->
  Manager.Remove mgr link r
  = ((pkg.SaveToml w1 (mkConfig (l1 ++ l2)) file).1,
     mkRun (pkg.SaveToml w1 (mkConfig (l1 ++ l2)) file).2
       (calls r ++ [CallReadToml file;
                    CallRemove absLink (Target (LinkManager.Expand lm m));
                    CallReadToml file;
                    CallSaveToml (mkConfig (l1 ++ l2)) file])).
Proof.
  intros Habs Hmatch Hrm Herr Hcfg Hnin.
  pose proof (Remove_matched link r absLink m Habs Hmatch) as Heq.
  cbv zeta in Heq. rewrite Hrm in Heq. simpl in Heq. rewrite Heq.
  rewrite (removeFromConfiguration_found s (mkRun w1 _) l1 l2 Herr Hcfg Hnin).
  simpl. rewrite <- app_assoc. reflexivity.
Qed.

(** X5.  The record [Remove] goes on with is the last record of the
    configuration, whichever record has the link: the loop keeps the address
    of its variable, which holds the last record when the loop ends (Go
    before 1.22).  When some record has the unexpanded link, the link manager
    is called with the expanded target of the last record. *)
Theorem Remove_goes_on_with_the_last_record (link : string) (r : Run W)
    (absLink : string) (l : list Symlink) (lastrec : Symlink) :
  pkg.AsAbsolute (fs r) wd link = Ok absLink ->
  Symlinks (pkg.ReadToml (fs r) file).1 = l ++ [lastrec] ->
  (exists s, s ∈ l ++ [lastrec] /\ Link s = UnexpandHome absLink home) ->
  exists rest,
    calls (Manager.Remove mgr link r).2
    = calls r ++ [CallReadToml file;
                  CallRemove absLink (Target (LinkManager.Expand lm lastrec))] ++ rest.
Proof.
  intros Habs Hcfg Hsome.
  pose proof (matchingSymlink_last _ _ _ Hsome) as Hmatch. rewrite <- Hcfg in Hmatch.
  pose proof (Remove_matched link r absLink lastrec Habs Hmatch) as Heq.
  cbv zeta in Heq. rewrite Heq.
  destruct (LinkManager.Remove lm absLink _ (fs r)) as [[s | e] w1]; simpl.
  - destruct (removeFromConfiguration_calls s (mkRun w1
                (calls r ++ [CallReadToml file;
                   CallRemove absLink (Target (LinkManager.Expand lm lastrec))])))
      as [rest ->].
    exists rest. simpl. rewrite <- app_assoc. reflexivity.
  - exists []. reflexivity.
Qed.

(** X6.  A successful [Add] keeps the stored records: when what is saved is
    read back, the configuration after the call is the one [Add] read, as it
    was when it already held the unexpanded record, and with that record
    appended as its last one otherwise. *)
Theorem Add_keeps_the_stored_records (target newLocation : string) (r r' : Run W)
    (absTarget : string) (s : Symlink) (w1 : W) :
  pkg.AsAbsolute (fs r) wd target = Ok absTarget ->
  LinkManager.Ensure lm (LinkManager.New lm newLocation absTarget) (fs r) = (None, w1) ->
  Manager.Add mgr target newLocation r = ((Some s, None), r') ->
  (forall w c w', pkg.SaveToml w c file = (None, w') -> pkg.ReadToml w' file = (c, None)) ->
  let cfg := Symlinks (pkg.ReadToml w1 file).1 in
  let u := LinkManager.Unexpand lm s in
  Symlinks (pkg.ReadToml (fs r') file).1
  = if decide (u ∈ cfg) then cfg else cfg ++ [u].
Proof.
  intros Habs Hens Hadd Hround cfg u. subst cfg u.
  rewrite (Add_ensured mgr _ _ _ _ _ Habs Hens) in Hadd.
  set (symlink := LinkManager.New lm newLocation absTarget) in *.
  set (r0 := mkRun w1 _) in Hadd.
  assert (s = symlink) as -> by (injection Hadd as <- _ _; reflexivity).
  destruct (Manager.otherError (pkg.ReadToml (fs r0) file).2) eqn:Hother.
  - destruct (pkg.ReadToml (fs r0) file).2 as [e |] eqn:Hread; [| discriminate].
    assert (e <> ErrNoSuchFile) as Hne by (intros ->; discriminate).
    rewrite (addToConfiguration_read_error mgr _ r0 e Hread Hne) in Hadd. discriminate.
  - destruct (decide (LinkManager.Unexpand lm symlink
                      ∈ Symlinks (pkg.ReadToml w1 file).1)) as [Hin | Hnin].
    + rewrite (addToConfiguration_stored mgr _ r0 Hother Hin) in Hadd.
      injection Hadd as <-. reflexivity.
    + pose proof (addToConfiguration_new mgr _ r0 Hother Hnin) as Hnew.
      cbv zeta in Hnew. rewrite Hnew in Hadd. clear Hnew. simpl in Hadd.
      injection Hadd as Hsave <-. simpl.
      destruct (pkg.SaveToml w1 _ file) as [serr w'] eqn:Hsaved.
      simpl in Hsave. subst serr. simpl.
      rewrite (Hround _ _ _ Hsaved). reflexivity.
Qed.

End ManagerMore.

Lemma removeFromConfiguration_removes_last_occurrence_witness :
  let r := mkRun scenario.two_records [] in
  let out := Manager.removeFromConfiguration fixture.mgr fixture.expanded r in
  Symlinks (memfs.ReadToml (fs r) fixture.configFile).1 = [fixture.stored; scenario.other]
  /\ out.1 = (Some fixture.stored, None)
  /\ calls out.2 = [CallReadToml fixture.configFile;
                    CallSaveToml (mkConfig [scenario.other]) fixture.configFile]
  /\ Symlinks (memfs.ReadToml (fs out.2) fixture.configFile).1 = [scenario.other].
Proof.
  intros r out.
  pose proof (removeFromConfiguration_removes_last_occurrence fixture.mgr
                fixture.expanded r [] [scenario.other]) as Hout.
  fold out in Hout. rewrite Hout.
  - split; [| split; [| split]]; vm_compute; reflexivity.
  - vm_compute. discriminate.
  - reflexivity.
  - intros Hin. apply list_elem_of_singleton in Hin. discriminate.
Defined.

Lemma add_then_remove_restores_witness :
  let r := mkRun scenario.other_stored [] in
  let r1 := (Manager.addToConfiguration fixture.mgr fixture.expanded r).2 in
  Symlinks (memfs.ReadToml (fs r) fixture.configFile).1 = [scenario.other]
  /\ Symlinks (memfs.ReadToml (fs r1) fixture.configFile).1
     = [scenario.other; fixture.stored]
  /\ (Manager.removeFromConfiguration fixture.mgr fixture.expanded r1).1
     = (Some fixture.stored, None)
  /\ Symlinks (memfs.ReadToml
                 (fs (Manager.removeFromConfiguration fixture.mgr fixture.expanded r1).2)
                 fixture.configFile).1 = [scenario.other].
Proof.
  intros r r1.
  destruct (add_then_remove_restores fixture.mgr fixture.expanded r (fs r1))
    as [_ Hremove].
  - reflexivity.
  - intros Hin. apply list_elem_of_singleton in Hin. discriminate.
  - vm_compute. reflexivity.
  - vm_compute. reflexivity.
  - split; [reflexivity | split; [vm_compute; reflexivity |]].
    fold r1 in Hremove. rewrite Hremove. split; vm_compute; reflexivity.
Defined.

Lemma Remove_succeeds_leaving_the_record_witness :
  let r := mkRun fixture.stored_stale [] in
  let out := fixture.Remove "/home/.vimrc" r in
  out.1 = None
  /\ fs out.2 !! "/home/.vimrc" = None
  /\ Symlinks (memfs.ReadToml (fs out.2) fixture.configFile).1 = [fixture.stored].
Proof.
  intros r out.
  assert (out = (None,
                 mkRun (delete "/home/.vimrc" fixture.stored_stale)
                   [CallReadToml fixture.configFile;
                    CallRemove "/home/.vimrc" "/home/.dotfiles/.vimrc";
                    CallReadToml fixture.configFile])) as ->.
  { apply (Remove_succeeds_leaving_the_record fixture.mgr "/home/.vimrc" r
             "/home/.vimrc" fixture.stored
             (mkSymlink "/home/old/vimrc" "/home/.vimrc")).
    - reflexivity.
    - reflexivity.
    - reflexivity.
    - right. vm_compute. intros Hin. apply list_elem_of_singleton in Hin. discriminate. }
  split; [reflexivity | split; vm_compute; reflexivity].
Defined.

Lemma Remove_deletes_the_record_witness :
  let r := mkRun scenario.linked [] in
  let out := fixture.Remove "/home/.vimrc" r in
  out.1 = None
  /\ fs out.2 !! "/home/.vimrc" = None
  /\ Symlinks (memfs.ReadToml (fs out.2) fixture.configFile).1 = [].
Proof.
  intros r out.
  pose proof (Remove_deletes_the_record fixture.mgr "/home/.vimrc" r
                "/home/.vimrc" fixture.stored fixture.expanded
                (delete "/home/.vimrc" scenario.linked) [] []) as Hout.
  assert (out = fixture.Remove "/home/.vimrc" r) as Heq by reflexivity.
  unfold fixture.Remove in Heq. rewrite Hout in Heq.
  - rewrite Heq. split; [| split]; vm_compute; reflexivity.
  - reflexivity.
  - reflexivity.
  - reflexivity.
  - vm_compute. discriminate.
  - reflexivity.
  - apply not_elem_of_nil.
Defined.

Lemma Remove_goes_on_with_the_last_record_witness :
  let r := mkRun scenario.two_records [] in
  UnexpandHome "/home/.vimrc" "/home" = Link fixture.stored
  /\ exists rest,
      calls (fixture.Remove "/home/.vimrc" r).2
      = [CallReadToml fixture.configFile;
         CallRemove "/home/.vimrc" "/home/.dotfiles/.bashrc"] ++ rest.
Proof.
  intros r. split; [reflexivity |].
  apply (Remove_goes_on_with_the_last_record fixture.mgr "/home/.vimrc" r
           "/home/.vimrc" [fixture.stored] scenario.other).
  - reflexivity.
  - reflexivity.
  - exists fixture.stored. split; [| reflexivity].
    apply elem_of_cons. left. reflexivity.
Defined.

Lemma Add_keeps_the_stored_records_witness :
  let r := mkRun scenario.other_stored [] in
  let out := fixture.Add "/home/.vimrc" "" r in
  out.1 = (Some fixture.expanded, None)
  /\ Symlinks (memfs.ReadToml (fs out.2) fixture.configFile).1
     = [scenario.other; fixture.stored].
Proof.
  intros r out.
  assert (fixture.Add "/home/.vimrc" "" r = ((Some fixture.expanded, None), out.2))
    as Hadd by (vm_compute; reflexivity).
  split; [vm_compute; reflexivity |].
  pose proof (Add_keeps_the_stored_records fixture.mgr "/home/.vimrc" "" r out.2
                "/home/.vimrc" fixture.expanded
                (linkManager.Ensure fixture.expanded scenario.other_stored).2) as Hout.
  cbv zeta in Hout. unfold pkg.ReadToml at 1 in Hout. simpl in Hout.
  change (Manager.configFile fixture.mgr) with fixture.configFile in Hout.
  rewrite Hout.
  - vm_compute. reflexivity.
  - reflexivity.
  - vm_compute. reflexivity.
  - exact Hadd.
  - intros w c w'. apply SaveToml_ReadToml.
Defined.

(** * More of package [path] *)

Lemma append_inv_head (p a b : string) : p +:+ a = p +:+ b -> a = b.
Proof.
  induction p as [| c p IH]; [auto |]. rewrite !append_cons. intros [= H]. auto.
Qed.

Lemma append_inv_tail (a b r : string) : a +:+ r = b +:+ r -> a = b.
Proof.
  intros H.
  assert (String.length a = String.length b) as Hlen.
  { apply (f_equal String.length) in H. rewrite !length_append in H. lia. }
  revert b H Hlen. induction a as [| x a IH]; intros [| y b] H Hlen;
    try discriminate; [reflexivity |].
  rewrite !append_cons in H. injection H as -> H.
  f_equal. apply IH; [exact H | simpl in Hlen; lia].
Qed.

(** [Index], when it is not [-1], is the place of an occurrence. *)
Lemma Index_sound (s sub : string) :
  (0 <= strings.Index s sub)%Z ->
  s = strings.slice_to (Z.to_nat (strings.Index s sub)) s +:+ sub
      +:+ strings.slice_from (Z.to_nat (strings.Index s sub) + String.length sub) s.
Proof.
  induction s as [| a s IH]; simpl.
  - destruct (strings.HasPrefix "" sub) eqn:Hp; [| lia]. intros _.
    apply (HasPrefix_split "" sub Hp).
  - destruct (strings.HasPrefix (String a s) sub) eqn:Hp.
    + intros _. apply (HasPrefix_split (String a s) sub Hp).
    + destruct (Z.ltb_spec (strings.Index s sub) 0) as [Hneg | Hpos]; [lia |].
      intros _. replace (Z.to_nat (strings.Index s sub + 1))
        with (S (Z.to_nat (strings.Index s sub))) by lia.
      simpl. rewrite append_cons. f_equal. apply IH, Hpos.
Qed.

(** [Index] is [-1] only when there is no occurrence. *)
Lemma Index_none (s sub : string) :
  strings.Index s sub = (-1)%Z -> forall pre post, s <> pre +:+ sub +:+ post.
Proof.
  induction s as [| a s IH]; simpl; intros Hidx pre post Heq.
  - destruct (strings.HasPrefix "" sub) eqn:Hp; [discriminate |].
    destruct pre; [| discriminate]. rewrite append_nil in Heq.
    rewrite Heq, HasPrefix_app in Hp. discriminate.
  - destruct (strings.HasPrefix (String a s) sub) eqn:Hp; [discriminate |].
    destruct pre as [| c pre].
    + rewrite append_nil in Heq. rewrite Heq, HasPrefix_app in Hp. discriminate.
    + rewrite append_cons in Heq. injection Heq as _ Heq.
      pose proof (Index_ge s sub).
      destruct (Z.ltb_spec (strings.Index s sub) 0); [| lia].
      apply (IH ltac:(lia) pre post Heq).
Qed.

Lemma Index_cases (s sub : string) :
  strings.Index s sub = (-1)%Z \/ (0 <= strings.Index s sub)%Z.
Proof. pose proof (Index_ge s sub). lia. Qed.

(** X7.  [ExpandHome] undoes [UnexpandHome] on every path that has no [~]
    before the first occurrence of the home directory (no [~] at all when the
    home directory does not occur), wherever in the path that occurrence
    stands. *)
Theorem ExpandHome_undoes_UnexpandHome (s home : string) :
  absent "~" (before_first s home) ->
  ExpandHome (UnexpandHome s home) home = s.
Proof.
  unfold before_first, ExpandHome, UnexpandHome. intros Habs.
  destruct (String.eqb_spec home "~") as [-> | Hne].
  { unfold strings.Replace1. rewrite String.eqb_refl. reflexivity. }
  unfold strings.Replace1 at 2.
  assert (String.eqb home "~" = false) as -> by (apply String.eqb_neq, Hne).
  destruct (Z.ltb_spec (strings.Index s home) 0) as [Hneg | Hpos].
  - apply Replace1_absent, Habs.
  - rewrite (append_cons "~" "" _), append_nil.
    rewrite (Replace1_first "~" home _ _ Habs).
    symmetry. apply Index_sound, Hpos.
Qed.

Lemma ExpandHome_undoes_UnexpandHome_witness :
  before_first "/data/home/x~" "/home" = "/data"
  /\ UnexpandHome "/data/home/x~" "/home" = "/data~/x~"
  /\ ExpandHome (UnexpandHome "/data/home/x~" "/home") "/home" = "/data/home/x~".
Proof.
  split; [reflexivity | split; [reflexivity |]].
  apply (ExpandHome_undoes_UnexpandHome "/data/home/x~" "/home").
  simpl. repeat split; discriminate.
Defined.

(** X8.  [UnexpandHome] returns its argument unchanged exactly when the home
    directory does not occur in it or is itself [~]; [ExpandHome] returns its
    argument unchanged exactly when it holds no [~] or the home directory is
    itself [~]. *)
Theorem unchanged_when_nothing_to_replace (s home : string) :
  (UnexpandHome s home = s
   <-> home = "~" \/ forall pre post, s <> pre +:+ home +:+ post)
  /\ (ExpandHome s home = s <-> home = "~" \/ absent "~" s).
Proof.
  unfold UnexpandHome, ExpandHome, strings.Replace1. split.
  - destruct (String.eqb_spec home "~") as [-> | Hne]; [tauto |].
    destruct (Index_cases s home) as [Hnone | Hpos].
    + rewrite Hnone. simpl. split; [| reflexivity].
      intros _. right. apply Index_none, Hnone.
    + destruct (Z.ltb_spec (strings.Index s home) 0) as [Hneg | _]; [lia |].
      pose proof (Index_sound s home Hpos) as Hs. split.
      * intros Heq. pose proof (eq_trans Heq Hs) as Heq'.
        apply append_inv_head, append_inv_tail in Heq'. congruence.
      * intros [-> | Hno]; [congruence |]. destruct (Hno _ _ Hs).
  - destruct (String.eqb_spec "~" home) as [<- | Hne]; [tauto |].
    destruct (Index_cases s "~") as [Hnone | Hpos].
    + rewrite Hnone. simpl. split; [| reflexivity].
      intros _. right. apply (Index_absent "~"), Hnone.
    + destruct (Z.ltb_spec (strings.Index s "~") 0) as [Hneg | _]; [lia |].
      pose proof (Index_sound s "~" Hpos) as Hs. split.
      * intros Heq. pose proof (eq_trans Heq Hs) as Heq'.
        apply append_inv_head, append_inv_tail in Heq'. congruence.
      * intros [-> | Habs]; [congruence |].
        apply (Index_absent "~") in Habs. lia.
Qed.

(** * Package [generic] *)

Section GenericFacts.
Context {W Cmd : Type}.
Variable run_Run : Cmd -> W -> option error * W.

(** The manager [m] with other commands. *)
Definition with_commands (commands : gmap string string) (m : generic.t W Cmd)
  : generic.t W Cmd :=
  generic.mk (generic.PrintOutputToUser m) (generic.WithCapture m) (generic.name m)
    (generic.config m) commands (generic.configFile m).

Lemma Join_cons (e : string) (rest : list string) (sep : string) :
  rest <> [] -> strings_Join (e :: rest) sep = e +:+ sep +:+ strings_Join rest sep.
Proof. destruct rest; [congruence | reflexivity]. Qed.

(** X9.  [Update] runs the command line of [Ensure]: it resolves the
    operation "ensure" with the configuration file as argument, and an
    "update" entry in the commands of the manager has no effect on it. *)
Theorem Update_runs_the_ensure_command (m : generic.t W Cmd) (update : string) (w : W) :
  generic.Update run_Run (with_commands (<["update" := update]> (generic.commands m)) m) w
  = generic.Ensure run_Run m w.
Proof.
  unfold generic.Update, generic.Ensure, generic.resolveCommand, with_commands. simpl.
  rewrite !lookup_insert_ne by discriminate. reflexivity.
Qed.

(** X10.  An operation the manager has no entry for is resolved as if its
    entry were the "command" entry followed by the name of the operation: the
    command line is the same, whatever the arguments. *)
Theorem unconfigured_operation_uses_command (m : generic.t W Cmd)
    (operation command : string) (args : list string) :
  generic.commands m !! operation = None ->
  generic.commands m !! "command" = Some command ->
  generic.resolveCommand m operation args
  = generic.resolveCommand
      (with_commands (<[operation := command +:+ " " +:+ operation]> (generic.commands m)) m)
      operation args.
Proof.
  intros Hop Hcommand. unfold generic.resolveCommand, with_commands.
  cbn -[strings_Join].
  rewrite Hop, Hcommand, lookup_insert_eq. cbn -[strings_Join]. do 2 f_equal. f_equal.
  destruct args as [| a args]; [reflexivity |].
  rewrite (Join_cons command), (Join_cons operation), (Join_cons (command +:+ _))
    by discriminate.
  rewrite !append_assoc. reflexivity.
Qed.

End GenericFacts.

Lemma unconfigured_operation_uses_command_witness :
  let m := generic.NewManager (W := unit) (fun cmd => cmd) (fun cmd w => (Ok "", w))
             (generic.mkConf {[ "brew" := {[ "command" := "brew bundle" ]} ]}
                (fun program args => program :: args))
             "/home/.config/punkt/brew.toml" "brew" in
  generic.resolveCommand m "dump" ["--global"]
  = ["sh"; "-c"; "brew bundle dump --global"]
  /\ generic.resolveCommand
       (with_commands (<["dump" := "brew bundle dump"]> (generic.commands m)) m)
       "dump" ["--global"]
     = ["sh"; "-c"; "brew bundle dump --global"].
Proof.
  intros m. split; [reflexivity |].
  pose proof (unconfigured_operation_uses_command m "dump" "brew bundle" ["--global"]
                eq_refl eq_refl) as H.
  exact (eq_sym H).
Defined.

(** * Package [mgr]: the root manager *)

Section RootManagerFacts.
Context {W : Type} {P : pkg.t W}.
Variable filepath_Join : string -> string -> string.
Variable file_Save : W -> string -> string -> option error * W.
Variable rootMgr : RootManager.t W.

Local Abbreviation UpdateFrom := (RootManager.UpdateFrom (W := W)).
Local Abbreviation UpdateAll := (RootManager.UpdateAll (W := W)).
Local Abbreviation DumpFrom := (RootManager.DumpFrom filepath_Join file_Save rootMgr).
Local Abbreviation DumpAll := (RootManager.DumpAll filepath_Join file_Save rootMgr).
Local Abbreviation readSymlinks := (RootManager.readSymlinks filepath_Join rootMgr).
Local Abbreviation ensureSymlinks := (RootManager.ensureSymlinks rootMgr).
Local Abbreviation EnsureAll := (RootManager.EnsureAll filepath_Join rootMgr).
Local Abbreviation rlm := (RootManager.LinkManager rootMgr).

Lemma UpdateFrom_result (mgrs : list (RootManager.Manager W)) (result : list error) (w : W) :
  UpdateFrom mgrs result w
  = (result ++ (UpdateFrom mgrs [] w).1, (UpdateFrom mgrs [] w).2).
Proof.
  revert result w. induction mgrs as [| m mgrs IH]; intros result w; simpl.
  - rewrite app_nil_r. reflexivity.
  - destruct (RootManager.Update m w) as [[e |] w1]; [| apply IH].
    rewrite (IH (RootManager.multierror_Append result _)), (IH (RootManager.multierror_Append [] _)).
    unfold RootManager.multierror_Append. simpl. rewrite <- List.app_assoc. reflexivity.
Qed.

(** X11.  [RootManager.Update] goes through all the managers, whatever fails:
    on two lists of managers one after the other, it does what it does on the
    first and then, from the state that leaves, what it does on the second,
    and its errors are those of the first followed by those of the second.
    On one manager, it returns the manager's error wrapped with the manager's
    name, or none. *)
Theorem Update_of_a_concatenation (ms1 ms2 : list (RootManager.Manager W)) (w : W) :
  UpdateAll (ms1 ++ ms2) w
  = ((UpdateAll ms1 w).1 ++ (UpdateAll ms2 (UpdateAll ms1 w).2).1,
     (UpdateAll ms2 (UpdateAll ms1 w).2).2)
  /\ forall m,
      UpdateAll [m] w
      = (match (RootManager.Update m w).1 with
         | Some e => [Wrapf e ("update failed [manager: " +:+ RootManager.Name m +:+ "]")]
         | None => []
         end, (RootManager.Update m w).2).
Proof.
  unfold RootManager.UpdateAll. split.
  - revert w. induction ms1 as [| m ms1 IH]; intros w; simpl.
    + destruct (UpdateFrom ms2 [] w). reflexivity.
    + destruct (RootManager.Update m w) as [[e |] w1]; [| apply IH].
      rewrite UpdateFrom_result, (UpdateFrom_result ms1 (RootManager.multierror_Append [] _)).
      rewrite IH. simpl. reflexivity.
  - intros m. simpl. destruct (RootManager.Update m w) as [[e |] w1]; reflexivity.
Qed.

Lemma DumpFrom_result (mgrs : list (RootManager.Manager W)) (result : list error) (w : W) :
  DumpFrom mgrs result w
  = (result ++ (DumpFrom mgrs [] w).1, (DumpFrom mgrs [] w).2).
Proof.
  revert result w. induction mgrs as [| m mgrs IH]; intros result w; simpl.
  - rewrite app_nil_r. reflexivity.
  - destruct (RootManager.Dump m w) as [[out [e |]] w1].
    + rewrite (IH (RootManager.multierror_Append result _)),
        (IH (RootManager.multierror_Append [] _)).
      unfold RootManager.multierror_Append. simpl. rewrite <- List.app_assoc. reflexivity.
    + destruct (file_Save w1 out _) as [[e |] w2]; [| apply IH].
      rewrite (IH (RootManager.multierror_Append result _)),
        (IH (RootManager.multierror_Append [] _)).
      unfold RootManager.multierror_Append. simpl. rewrite <- List.app_assoc. reflexivity.
Qed.

(** X12.  [RootManager.Dump] goes through all the managers, whatever fails:
    on two lists of managers one after the other, it does what it does on the
    first and then what it does on the second, with the errors of both in
    order.  On one manager: when the manager's [Dump] fails nothing is saved
    and its error is returned wrapped; otherwise the output is saved to the
    manager's configuration file, and a failure of the save is returned
    wrapped. *)
Theorem Dump_of_a_concatenation (ms1 ms2 : list (RootManager.Manager W)) (w : W) :
  DumpAll (ms1 ++ ms2) w
  = ((DumpAll ms1 w).1 ++ (DumpAll ms2 (DumpAll ms1 w).2).1,
     (DumpAll ms2 (DumpAll ms1 w).2).2)
  /\ forall m,
      DumpAll [m] w
      = match RootManager.Dump m w with
        | ((_, Some e), w1) =>
            ([Wrapf e ("dump failed [manager: " +:+ RootManager.Name m +:+ "]")], w1)
        | ((out, None), w1) =>
            let file := RootManager.ConfigFile filepath_Join rootMgr (RootManager.Name m) in
            (match (file_Save w1 out file).1 with
             | Some e =>
                 [Wrapf e ("failed to save configuration [manager: "
                           +:+ RootManager.Name m +:+ "]")]
             | None => []
             end, (file_Save w1 out file).2)
        end.
Proof.
  unfold RootManager.DumpAll. split.
  - revert w. induction ms1 as [| m ms1 IH]; intros w; simpl.
    + destruct (DumpFrom ms2 [] w). reflexivity.
    + destruct (RootManager.Dump m w) as [[out [e |]] w1].
      * rewrite DumpFrom_result, (DumpFrom_result ms1 (RootManager.multierror_Append [] _)).
        rewrite IH. simpl. reflexivity.
      * destruct (file_Save w1 out _) as [[e |] w2]; [| apply IH].
        rewrite DumpFrom_result, (DumpFrom_result ms1 (RootManager.multierror_Append [] _)).
        rewrite IH. simpl. reflexivity.
  - intros m. simpl. destruct (RootManager.Dump m w) as [[out [e |]] w1]; [reflexivity |].
    destruct (file_Save w1 out _) as [[e |] w2]; reflexivity.
Qed.

(** X13.  [readSymlinks] fails exactly when the read of the manager's
    configuration file fails with another error than "no such file", and
    then with that error; when there is no file it returns no symlink. *)
Theorem readSymlinks_errors (name : string) (w : W) :
  let file := RootManager.ConfigFile filepath_Join rootMgr name in
  (forall e, readSymlinks name w = Err e
             <-> (pkg.ReadToml w file).2 = Some e /\ e <> ErrNoSuchFile)
  /\ ((pkg.ReadToml w file).2 = Some ErrNoSuchFile -> readSymlinks name w = Ok []).
Proof.
  intros file. unfold RootManager.readSymlinks. fold file.
  pose proof (pkg.ReadToml_no_file w file) as Hempty.
  destruct (pkg.ReadToml w file) as [cfg [e0 |]]; simpl in *.
  - destruct e0; simpl; (split; [intros e; split |]); try discriminate;
      try (intros [[= <-] Hne]; congruence);
      try (intros [= <-]; split; [reflexivity | discriminate]);
      try (intros [= <-]; discriminate).
    intros _. rewrite Hempty; reflexivity.
  - split; [intros e; split; [discriminate | intros [? _]; discriminate] | discriminate].
Qed.

Lemma ensureSymlinks_past (mgrs : list (RootManager.Manager W)) (symlinks : list Symlink)
    (i : nat) (result : list error) (w : W) :
  length mgrs <= i ->
  ensureSymlinks mgrs symlinks i result w = Panics
  \/ exists w', ensureSymlinks mgrs symlinks i result w = Returns (result, w').
Proof.
  revert i w. induction symlinks as [| s symlinks IH]; intros i w Hlen; simpl.
  - right. eauto.
  - destruct (LinkManager.Ensure rlm _ w) as [[e |] w1].
    + rewrite (lookup_ge_None_2 mgrs i Hlen). left. reflexivity.
    + apply IH. lia.
Qed.

(** X14.  In [RootManager.Ensure], the error of a symlink is reported under
    the name of the manager that stands at the index of the symlink in the
    list of managers, and not of the manager the symlink belongs to.  With
    two managers, a failure on the second symlink of the first manager is
    reported under the name of the second manager; with one manager, it
    panics (index out of range). *)
Theorem Ensure_names_the_manager_at_the_index_of_the_symlink
    (m0 m1 : RootManager.Manager W) (w w1 w2 w3 : W) (s0 s1 : Symlink)
    (rest : list Symlink) (e1 : error) :
  RootManager.Ensure m0 w = (None, w1) ->
  readSymlinks (RootManager.Name m0) w1 = Ok (s0 :: s1 :: rest) ->
  LinkManager.Ensure rlm (LinkManager.Expand rlm s0) w1 = (None, w2) ->
  LinkManager.Ensure rlm (LinkManager.Expand rlm s1) w2 = (Some e1, w3) ->
  EnsureAll [m0] w = Panics
  /\ (rest = [] ->
      EnsureAll [m0; m1] w
      = RootManager.EnsureFrom filepath_Join rootMgr [m0; m1] [m1]
          [Wrapf e1 ("unable to ensure symlink [manager: " +:+ RootManager.Name m1
                     +:+ ", symlink: " +:+ Symlink_String s1 +:+ "]")] w3).
Proof.
  intros Hens Hread H0 H1. unfold RootManager.EnsureAll. split.
  - simpl. rewrite Hens, Hread. simpl. rewrite H0, H1. reflexivity.
  - intros ->. simpl. rewrite Hens, Hread. simpl. rewrite H0, H1. reflexivity.
Qed.

End RootManagerFacts.

Lemma Ensure_names_the_manager_at_the_index_of_the_symlink_witness :
  let refused :=
    Errorf "/home/.bashrc already exists, refuse to overwrite" in
  RootManager.EnsureAll scenario.join scenario.root [scenario.idle "brew"]
    scenario.brew_links = Panics
  /\ RootManager.EnsureAll scenario.join scenario.root
       [scenario.idle "brew"; scenario.idle "git"] scenario.brew_links
     = Returns
         ([Wrapf refused
             "unable to ensure symlink [manager: git, symlink: ~/.bashrc -> ~/.dotfiles/.bashrc]"],
          scenario.brew_links).
Proof.
  intros refused.
  destruct (Ensure_names_the_manager_at_the_index_of_the_symlink
              scenario.join scenario.root (scenario.idle "brew") (scenario.idle "git")
              scenario.brew_links scenario.brew_links scenario.brew_links
              scenario.brew_links fixture.stored scenario.other [] refused)
    as [Hpanic Hnamed]; [reflexivity | reflexivity | reflexivity | reflexivity |].
  split; [exact Hpanic |]. rewrite (Hnamed eq_refl). reflexivity.
Defined.

(** * Package [git] *)

Section GitFacts.
Context {W GitConf : Type}.
Variable ReadToml : W -> string -> git.Config GitConf * option error.
Variable SaveToml : W -> git.Config GitConf -> string -> option error * W.
Variable mgr : git.t W GitConf.

Local Abbreviation gfile := (git.configFile mgr).
Local Abbreviation readConfig := (git.readConfig ReadToml mgr).
Local Abbreviation gAdd := (git.Add ReadToml SaveToml mgr).
Local Abbreviation gRemove := (git.Remove ReadToml SaveToml mgr).

Lemma git_lastIndex_absent (path : string) (l : list (git.Repo GitConf)) (i index : Z) :
  (forall repo, repo ∈ l -> git.Path repo <> path) ->
  git.lastIndex path l i index = index.
Proof.
  revert i index. induction l as [| x l IH]; intros i index Hnone; [reflexivity |].
  simpl. destruct (String.eqb_spec (git.Path x) path) as [Heq | _].
  - destruct (Hnone x (list_elem_of_here _ _) Heq).
  - apply IH. intros repo Hin. apply Hnone. apply list_elem_of_further, Hin.
Qed.

Lemma git_lastIndex_last (path : string) (l1 l2 : list (git.Repo GitConf))
    (x : git.Repo GitConf) (i index : Z) :
  git.Path x = path ->
  (forall repo, repo ∈ l2 -> git.Path repo <> path) ->
  git.lastIndex path (l1 ++ x :: l2) i index = (i + Z.of_nat (length l1))%Z.
Proof.
  intros Hx Hnone. revert i index. induction l1 as [| y l1 IH]; intros i index; simpl.
  - rewrite Hx, String.eqb_refl, (git_lastIndex_absent _ _ _ _ Hnone). lia.
  - rewrite IH. lia.
Qed.

Lemma git_Remove_found (path : string) (w : W) (l1 l2 : list (git.Repo GitConf))
    (x : git.Repo GitConf) :
  git.Repositories (readConfig w) = l1 ++ x :: l2 ->
  git.Path x = path ->
  (forall repo, repo ∈ l2 -> git.Path repo <> path) ->
  gRemove path w
  = SaveToml w (git.mkConfig' (git.Symlinks' (readConfig w)) (l1 ++ l2)) gfile.
Proof.
  intros Hrepos Hx Hnone. unfold git.Remove. rewrite Hrepos.
  rewrite (git_lastIndex_last _ _ _ _ _ _ Hx Hnone).
  destruct (Z.ltb_spec (0 + Z.of_nat (length l1)) 0) as [Hneg | _]; [lia |].
  rewrite Z.add_0_l, Nat2Z.id, take_app_length.
  rewrite cons_middle, app_assoc.
  rewrite (drop_app_length' (l1 ++ [x]) l2); [reflexivity |].
  rewrite length_app. reflexivity.
Qed.

(** X15.  [git.Manager.Remove]: when no repository of the configuration has
    the path, it returns [ErrRepositoryNotFoundInConfig] and saves nothing;
    otherwise it saves the configuration without the last repository that has
    the path, the other repositories in their order and the symlinks as they
    were, and returns the error of the save. *)
Theorem git_Remove_removes_the_last_repository (path : string) (w : W) :
  ((forall repo, repo ∈ git.Repositories (readConfig w) -> git.Path repo <> path) ->
   gRemove path w = (Some git.ErrRepositoryNotFoundInConfig, w))
  /\ (forall l1 l2 x,
        git.Repositories (readConfig w) = l1 ++ x :: l2 ->
        git.Path x = path ->
        (forall repo, repo ∈ l2 -> git.Path repo <> path) ->
        gRemove path w
        = SaveToml w (git.mkConfig' (git.Symlinks' (readConfig w)) (l1 ++ l2)) gfile).
Proof.
  split.
  - intros Hnone. unfold git.Remove.
    rewrite (git_lastIndex_absent _ _ _ _ Hnone). reflexivity.
  - apply git_Remove_found.
Qed.

(** X16.  [git.Manager.Remove] undoes [git.Manager.Add]: when the repository
    found at the path carries that path, the save of [Add] succeeds and what
    it saved is read back, removing the path saves the configuration [Add]
    had read, whether or not other repositories have the same path. *)
Theorem git_Add_then_Remove_restores (path : string) (w w1 w2 : W)
    (repo : git.Repo GitConf) :
  git.Dump (git.RepoManager_ mgr) path w = (Ok repo, w1) ->
  git.Path repo = path ->
  let before := readConfig w1 in
  let after :=
    git.mkConfig' (git.Symlinks' before) (git.Repositories before ++ [repo]) in
  SaveToml w1 after gfile = (None, w2) ->
  ReadToml w2 gfile = (after, None) ->
  gAdd path w = (None, w2)
  /\ gRemove path w2
     = SaveToml w2
         (git.mkConfig' (git.Symlinks' before) (git.Repositories before)) gfile.
Proof.
  intros Hdump Hpath before after Hsave Hback. split.
  - unfold git.Add. rewrite Hdump. fold before after. exact Hsave.
  - assert (readConfig w2 = after) as Hafter.
    { unfold git.readConfig. rewrite Hback. reflexivity. }
    pose proof (git_Remove_found path w2 (git.Repositories before) [] repo) as Hfound.
    rewrite Hafter, app_nil_r in Hfound. apply Hfound; [reflexivity | exact Hpath |].
    intros r Hr. inversion Hr.
Qed.

(** X17.  [git.Manager.Add] does not report a failure to read the
    configuration: when the repository is found and the read fails with
    another error than "no such file", it saves what the read left decoded
    with the repository appended, and returns the error of the save only. *)
Theorem git_Add_drops_the_read_error (path : string) (w w1 : W)
    (repo : git.Repo GitConf) (c : git.Config GitConf) (e : error) :
  git.Dump (git.RepoManager_ mgr) path w = (Ok repo, w1) ->
  ReadToml w1 gfile = (c, Some e) ->
  e <> ErrNoSuchFile ->
  gAdd path w
  = SaveToml w1 (git.mkConfig' (git.Symlinks' c) (git.Repositories c ++ [repo])) gfile.
Proof.
  intros Hdump Hread Hne. unfold git.Add, git.readConfig. rewrite Hdump, Hread.
  rewrite bool_decide_eq_false_2 by congruence. reflexivity.
Qed.

End GitFacts.

Lemma git_Remove_removes_the_last_repository_witness :
  let a := git.mkRepo "origin" "/src/a" tt in
  let b := git.mkRepo "origin" "/src/b" tt in
  let w := scenario.Holds (git.mkConfig' (mkConfig []) [a; b; a]) in
  git.Remove scenario.git_read scenario.git_save scenario.git_mgr "/src/c" w
  = (Some git.ErrRepositoryNotFoundInConfig, w)
  /\ git.Remove scenario.git_read scenario.git_save scenario.git_mgr "/src/a" w
     = (None, scenario.Holds (git.mkConfig' (mkConfig []) [a; b])).
Proof.
  intros a b w.
  destruct (git_Remove_removes_the_last_repository scenario.git_read scenario.git_save
              scenario.git_mgr "/src/c" w) as [Hnone _].
  destruct (git_Remove_removes_the_last_repository scenario.git_read scenario.git_save
              scenario.git_mgr "/src/a" w) as [_ Hlast].
  split.
  - apply Hnone. intros repo Hin.
    repeat (apply elem_of_cons in Hin as [-> | Hin]; [discriminate |]).
    inversion Hin.
  - apply (Hlast [a; b] [] a); [reflexivity | reflexivity |].
    intros repo Hin. inversion Hin.
Defined.

Lemma git_Add_then_Remove_restores_witness :
  let a := git.mkRepo "origin" "/src/a" tt in
  let w := scenario.Holds (git.mkConfig' (mkConfig []) [a]) in
  let added := git.Add scenario.git_read scenario.git_save scenario.git_mgr "/src/a" w in
  added = (None, scenario.Holds (git.mkConfig' (mkConfig []) [a; a]))
  /\ git.Remove scenario.git_read scenario.git_save scenario.git_mgr "/src/a" added.2
     = (None, w).
Proof.
  intros a w added.
  destruct (git_Add_then_Remove_restores scenario.git_read scenario.git_save
              scenario.git_mgr "/src/a" w w added.2 a)
    as [Hadd Hremove]; [reflexivity | reflexivity | reflexivity | reflexivity |].
  split; [exact Hadd | exact Hremove].
Defined.

Lemma git_Add_drops_the_read_error_witness :
  git.Add scenario.git_read scenario.git_save scenario.git_mgr "/src/a"
    scenario.Undecodable
  = (None,
     scenario.Holds (git.mkConfig' (mkConfig []) [git.mkRepo "origin" "/src/a" tt])).
Proof.
  apply (git_Add_drops_the_read_error scenario.git_read scenario.git_save
           scenario.git_mgr "/src/a" scenario.Undecodable scenario.Undecodable
           (git.mkRepo "origin" "/src/a" tt) (git.mkConfig' (mkConfig []) [])
           (Errorf "unable to decode")); [reflexivity | reflexivity | discriminate].
Defined.

